(** * unpackit: format sniffing, path sanitising and archive extraction

    A shallow embedding of [unzipit.go] (package [unzipit]) together with
    the pieces of the Go standard library it calls ([path/filepath] in its
    Unix flavour, [path.Base], [bufio.Reader.Peek], [io.Copy]/[io.CopyN]).

    Conventions.
    - A Go [string] holding a path is a [string]; inside [filepath] the
      bytes are handled as [list ascii], mirroring the byte buffer of
      [filepath.Clean].
    - A byte stream ([io.Reader]) is the list of bytes it will deliver,
      followed by [io.EOF] or by a read error.
    - Calls into the operating system are recorded as events; whether a
      call fails is decided by an arbitrary environment.
    - [path/filepath] is modelled in its Unix flavour, where
      [filepath.Separator] is ['/']; [runtime.GOOS] is a parameter, and
      decides only whether [sanitize] drops a drive label. *)

From Stdlib Require Import Ascii String.
From Stdlib Require Import List Bool Arith ZArith Lia.
From Stdlib Require Import Init.Byte.
Import ListNotations.

Local Open Scope string_scope.
Local Open Scope list_scope.
Local Open Scope nat_scope.

(* ================================================================= *)
(** ** path/filepath (Unix) *)

Module filepath.

Definition Separator : ascii := "/"%char.

Definition IsPathSeparator (c : ascii) : bool := Ascii.eqb c Separator.

Definition is_dot (c : ascii) : bool := Ascii.eqb c "."%char.

(** [r == n || os.IsPathSeparator(path[r])] for the unread input [l]. *)
Definition end_or_sep (l : list ascii) : bool :=
  match l with
  | [] => true
  | d :: _ => IsPathSeparator d
  end.

(** The backtracking loop of the [..] case, entered after [out.w--]:
    [for out.w > dotdot && !os.IsPathSeparator(out.index(out.w)) { out.w-- }].
    The result is the final value of [out.w]. *)
Fixpoint backtrack (buf : list ascii) (dotdot w : nat) {struct w} : nat :=
  if (dotdot <? w) && negb (IsPathSeparator (nth w buf Separator)) then
    match w with
    | S w' => backtrack buf dotdot w'
    | O => O
    end
  else w.

(** [out.append(Separator)] guarded by
    [rooted && out.w != 1 || !rooted && out.w != 0]. *)
Definition add_slash (rooted : bool) (out : list ascii) : list ascii :=
  if (rooted && negb (length out =? 1)%nat) || (negb rooted && negb (length out =? 0)%nat)
  then out ++ [Separator] else out.

(** The [..] element: back up to the previous separator when possible,
    append [..] to a relative path otherwise, do nothing at the root.
    Returns the new buffer and the new value of [dotdot]. *)
Definition dotdot_elem (rooted : bool) (out : list ascii) (dotdot : nat)
  : list ascii * nat :=
  if (dotdot <? length out)%nat then
    (firstn (backtrack out dotdot (length out - 1)) out, dotdot)
  else if negb rooted then
    let out1 := if (0 <? length out)%nat then out ++ [Separator] else out in
    let out2 := out1 ++ ["."%char; "."%char] in
    (out2, length out2)
  else (out, dotdot).

(** The main loop of [Clean]: [path] is the unread input [path[r:]],
    [out] the written buffer [buf[:w]]. *)
Fixpoint clean_loop (rooted : bool) (path out : list ascii) (dotdot : nat)
  {struct path} : list ascii :=
  match path with
  | [] => out
  | c :: rest =>
    if IsPathSeparator c then
      (* empty path element *)
      clean_loop rooted rest out dotdot
    else if is_dot c && end_or_sep rest then
      (* . element *)
      clean_loop rooted rest out dotdot
    else if is_dot c
            && match rest with
               | d :: rest2 => is_dot d && end_or_sep rest2
               | [] => false
               end then
      (* .. element *)
      match rest with
      | _ :: rest2 =>
        let '(out', dotdot') := dotdot_elem rooted out dotdot in
        clean_loop rooted rest2 out' dotdot'
      | [] => out
      end
    else
      (* real path element: add slash if needed, then copy the element *)
      (fix copy (p o : list ascii) {struct p} : list ascii :=
         match p with
         | [] => o
         | e :: p' =>
           if IsPathSeparator e then clean_loop rooted p o dotdot
           else copy p' (o ++ [e])
         end) rest (add_slash rooted out ++ [c])
  end.

(** The element-copying loop on its own, for reasoning:
    [for ; r < n && !os.IsPathSeparator(path[r]); r++ { out.append(path[r]) }]
    followed by the rest of the main loop. *)
Definition copy_elem (rooted : bool) (dotdot : nat)
  : list ascii -> list ascii -> list ascii :=
  fix copy (p o : list ascii) {struct p} : list ascii :=
    match p with
    | [] => o
    | e :: p' =>
      if IsPathSeparator e then clean_loop rooted p o dotdot
      else copy p' (o ++ [e])
    end.

(** [filepath.Clean] with [volumeNameLen = 0], on bytes. *)
Definition clean_bytes (path : list ascii) : list ascii :=
  match path with
  | [] => ["."%char]
  | c :: rest =>
    let rooted := IsPathSeparator c in
    let out :=
      if rooted then clean_loop true rest [Separator] 1
      else clean_loop false path [] 0 in
    (* Turn empty string into "." *)
    if (length out =? 0)%nat then ["."%char] else out
  end.

Definition Clean (path : string) : string :=
  string_of_list_ascii (clean_bytes (list_ascii_of_string path)).

(** [filepath.ToSlash]: the separator already is a slash. *)
Definition ToSlash (path : string) : string := path.

(** [filepath.Join]: the non-empty elements joined by the separator,
    then cleaned; two-element form. *)
Definition Join (a b : string) : string :=
  if String.eqb a "" then
    if String.eqb b "" then "" else Clean b
  else Clean (a ++ "/" ++ b)%string.

(** [filepath.Split]: [path[:i+1], path[i+1:]] with [i] the index of the
    last separator. *)
Fixpoint split_bytes (path : list ascii) : list ascii * list ascii :=
  match path with
  | [] => ([], [])
  | c :: t =>
    let '(d, f) := split_bytes t in
    match d with
    | _ :: _ => (c :: d, f)
    | [] => if IsPathSeparator c then ([c], f) else ([], c :: f)
    end
  end.

Definition Split (path : string) : string * string :=
  let '(d, f) := split_bytes (list_ascii_of_string path) in
  (string_of_list_ascii d, string_of_list_ascii f).

(** [filepath.Dir]: everything up to the last separator, cleaned. *)
Definition Dir (path : string) : string :=
  Clean (fst (Split path)).

End filepath.

(* ================================================================= *)
(** ** path.Base *)

Module path.

(** [for len(path) > 0 && path[len(path)-1] == '/' { path = path[:len(path)-1] }] *)
Fixpoint strip_trailing_slashes (p : list ascii) : list ascii :=
  match p with
  | [] => []
  | c :: t =>
    match strip_trailing_slashes t with
    | [] => if Ascii.eqb c "/"%char then [] else [c]
    | t' => c :: t'
    end
  end.

Definition Base (p : string) : string :=
  if String.eqb p "" then "."
  else
    let p1 := strip_trailing_slashes (list_ascii_of_string p) in
    let p2 := snd (filepath.split_bytes p1) in
    match p2 with
    | [] => "/"
    | _ => string_of_list_ascii p2
    end.

End path.

(* ================================================================= *)
(** ** sanitize *)

(** [for strings.HasPrefix(name, "../") { name = name[3:] }] *)
Fixpoint strip_parent_prefix (name : string) : string :=
  if String.prefix "../" name then
    match name with
    | String _ (String _ (String _ rest)) => strip_parent_prefix rest
    | _ => name
    end
  else name.

(** Sanitizes name to avoid overwriting sensitive system files when
    unarchiving. *)
Definition sanitize (GOOS : string) (name : string) : string :=
  (* Gets rid of volume drive label in Windows *)
  let name :=
    if (1 <? String.length name)
       && match String.get 1 name with
          | Some c => Ascii.eqb c ":"%char
          | None => false
          end
       && String.eqb GOOS "windows"
    then String.substring 2 (String.length name - 2) name
    else name in
  let name := filepath.Clean name in
  let name := filepath.ToSlash name in
  strip_parent_prefix name.

(* ================================================================= *)
(** ** Vocabulary for statements about paths *)

Module pathspec.
Import filepath.

(** An element contains no separator. *)
Definition nosep (c : list ascii) : bool :=
  forallb (fun a => negb (IsPathSeparator a)) c.

Definition dotdot_name : list ascii := ["."%char; "."%char].

(** A real path element: non-empty, separator-free, neither [.] nor [..]. *)
Definition normal (c : list ascii) : Prop :=
  c <> [] /\ nosep c = true /\ c <> ["."%char] /\ c <> dotdot_name.

(** Elements joined by single separators. *)
Fixpoint join (cs : list (list ascii)) : list ascii :=
  match cs with
  | [] => []
  | [c] => c
  | c :: cs' => c ++ Separator :: join cs'
  end.

(** The first element of the unread input and what follows it. *)
Fixpoint take_elem (l : list ascii) : list ascii :=
  match l with
  | [] => []
  | c :: t => if IsPathSeparator c then [] else c :: take_elem t
  end.

Fixpoint drop_elem (l : list ascii) : list ascii :=
  match l with
  | [] => []
  | c :: t => if IsPathSeparator c then l else drop_elem t
  end.

(** The buffer and [dotdot] index of [Clean]'s loop describe a stack of
    real elements, preceded by [k] parent references in a relative path
    and by the root separator in a rooted one. *)
Definition state_ok (rooted : bool) (out : list ascii) (dotdot : nat) : Prop :=
  if rooted then
    dotdot = 1 /\ exists stack, Forall normal stack /\ out = Separator :: join stack
  else
    exists k stack, Forall normal stack
      /\ out = join (repeat dotdot_name k ++ stack)
      /\ dotdot = length (join (repeat dotdot_name k)).

(** Appending a real element to the buffer. *)
Definition push (rooted : bool) (out c : list ascii) : list ascii :=
  add_slash rooted out ++ c.

(** The shapes of a cleaned path. *)
Inductive cleaned : list ascii -> Prop :=
| cl_dot : cleaned ["."%char]
| cl_rooted stack : Forall normal stack -> cleaned (Separator :: join stack)
| cl_rel k stack :
    Forall normal stack -> repeat dotdot_name k ++ stack <> [] ->
    cleaned (join (repeat dotdot_name k ++ stack)).

(** [strip_parent_prefix] on bytes. *)
Fixpoint strip_list (l : list ascii) : list ascii :=
  match l with
  | a :: b :: c :: rest =>
    if is_dot a && is_dot b && IsPathSeparator c then strip_list rest else l
  | _ => l
  end.

(** [sanitize] on bytes, past the drive label. *)
Definition sanitize_bytes (l : list ascii) : list ascii :=
  strip_list (clean_bytes l).

(** The shapes of a sanitized name. *)
Inductive sanitized : list ascii -> Prop :=
| san_dot : sanitized ["."%char]
| san_dotdot : sanitized dotdot_name
| san_rooted stack : Forall normal stack -> sanitized (Separator :: join stack)
| san_rel stack : stack <> [] -> Forall normal stack -> sanitized (join stack).

(** [p] lies inside the directory [root] (both cleaned, [root] rooted and
    not the root directory itself). *)
Definition inside (root p : string) : bool :=
  String.eqb p root || String.prefix (root ++ "/")%string p.

End pathspec.

(* ================================================================= *)
(** ** Streams, errors and the magic sniffer *)

Definition error := string.

Definition io_EOF : error := "EOF".
Definition ErrNegativeCount : error := "bufio: negative count".
Definition ErrBufferFull : error := "bufio: buffer full".

(** A value returned by a Go function, or a run-time panic. *)
Inductive result (A : Type) : Type :=
| Returns (a : A)
| Panics (msg : string).
Arguments Returns {A} a.
Arguments Panics {A} msg.

(** An [io.Reader]: the bytes it delivers, then [io.EOF] ([fault = None])
    or a read error. *)
Record Stream : Type := mkStream {
  payload : list byte;
  fault : option error
}.

(** Go's [int] (64 bits): two's complement wrap-around. *)
Definition int64 (z : Z) : Z := ((z + 2 ^ 63) mod 2 ^ 64 - 2 ^ 63)%Z.

Definition defaultBufSize : Z := 4096.

(** [bufio.NewReader]: the buffered view of a stream; nothing is read
    until asked for. *)
Definition bufio_NewReader (rd : Stream) : Stream := rd.

(** [b.readErr()] once the underlying reader is exhausted. *)
Definition readErr (b : Stream) : error :=
  match fault b with
  | Some e => e
  | None => io_EOF
  end.

(** [bufio.Reader.Peek] on a reader nothing has been read from. *)
Definition Peek (b : Stream) (n : Z) : list byte * option error :=
  if (n <? 0)%Z then ([], Some ErrNegativeCount)
  else if (defaultBufSize <? n)%Z then
    (firstn (Z.to_nat defaultBufSize) (payload b), Some ErrBufferFull)
  else if (Z.of_nat (length (payload b)) <? n)%Z then
    (payload b, Some (readErr b))
  else (firstn (Z.to_nat n) (payload b), None).

(** The slice expression [s[lo:hi]]. *)
Definition slice (s : list byte) (lo hi : Z) : result (list byte) :=
  if (0 <=? lo)%Z && (lo <=? hi)%Z && (hi <=? Z.of_nat (length s))%Z
  then Returns (firstn (Z.to_nat (hi - lo)) (skipn (Z.to_nat lo) s))
  else Panics "slice bounds out of range".

Fixpoint bytes_Equal (a b : list byte) : bool :=
  match a, b with
  | [], [] => true
  | x :: a', y :: b' => Byte.eqb x y && bytes_Equal a' b'
  | _, _ => false
  end.

Definition magicZIP : list byte := [x50; x4b; x03; x04].
Definition magicGZ : list byte := [x1f; x8b].
Definition magicBZIP : list byte := [x42; x5a].
Definition magicTAR : list byte := [x75; x73; x74; x61; x72]. (* at offset 257 *)
Definition magicXZ : list byte := [xfd; x37; x7a; x58; x5a; x00].

(** Check whether a file has the magic number for tar, gzip, bzip2 or
    zip files. Note that this function does not advance the Reader. *)
Definition magicNumber (reader : Stream) (offset : Z)
  : result (string * option error) :=
  let '(headerBytes, err) := Peek reader (int64 (offset + 6)) in
  match err with
  | Some e => Returns ("", Some e)
  | None =>
    match slice headerBytes offset (int64 (offset + 6)) with
    | Panics msg => Panics msg
    | Returns magic =>
      if bytes_Equal magicTAR (firstn 5 magic) then Returns ("tar", None)
      else if bytes_Equal magicZIP (firstn 4 magic) then Returns ("zip", None)
      else if bytes_Equal magicGZ (firstn 2 magic) then Returns ("gzip", None)
      else if bytes_Equal magicBZIP (firstn 2 magic) then Returns ("bzip", None)
      else if bytes_Equal magicXZ magic then Returns ("xz", None)
      else Returns ("", None)
    end
  end.

(** The sniffer as the specification words it: the window compared with
    the signatures in the order TAR, ZIP, GZIP, BZIP2, XZ, else unknown
    (the empty tag). *)
Definition has_signature (sig window : list byte) : bool :=
  bytes_Equal sig (firstn (length sig) window).

Definition classify_window (window : list byte) : string :=
  if has_signature magicTAR window then "tar"
  else if has_signature magicZIP window then "zip"
  else if has_signature magicGZ window then "gzip"
  else if has_signature magicBZIP window then "bzip"
  else if has_signature magicXZ window then "xz"
  else "".

(** The six bytes of the stream at [offset]. *)
Definition window_at (s : Stream) (offset : Z) : list byte :=
  firstn 6 (skipn (Z.to_nat offset) (payload s)).

(* ================================================================= *)
(** ** The operating system and the codec libraries *)

(** Calls made to the operating system and to the logger, in order. *)
Inductive Event : Type :=
| MkdirAll (path : string) (perm : Z)
| Lstat (path : string)
| Create (path : string)
| Chmod (path : string) (mode : Z)
| Chtimes (path : string) (mtime : Z)   (* atime is the time of the call *)
| Write (path : string) (data : list byte)
| Close (path : string)
| LogPrintln (e : error)
| LogWarnPerm (name : string) (e : error)
| LogWarnTimes (name : string) (e : error).

Definition is_log (ev : Event) : bool :=
  match ev with
  | LogPrintln _ | LogWarnPerm _ _ | LogWarnTimes _ _ => true
  | _ => false
  end.

(** An [io.ReadCloser] handed out by [zip.File.Open]. *)
Record ReadCloser : Type := mkReadCloser {
  rc_stream : Stream;
  rc_close : option error
}.

(** A [zip.File] as the extractor sees it. *)
Record ZipFile : Type := mkZipFile {
  zf_Name : string;
  zf_Mode : Z;                      (* f.Mode(), an fs.FileMode *)
  zf_ModTime : Z;
  zf_UncompressedSize64 : Z;
  zf_Open : error + ReadCloser
}.

(** [fs.FileMode.IsDir]: the [ModeDir] bit, [1 << 31]. *)
Definition FileMode_IsDir (m : Z) : bool := Z.testbit m 31.

(** [fs.FileMode.Perm]: [m & 0777]. *)
Definition FileMode_Perm (m : Z) : Z := Z.land m 511.

(** [os.FileMode(hdr.Mode)]: conversion of an [int64] to [uint32]. *)
Definition FileMode_of_int64 (m : Z) : Z := (m mod 2 ^ 32)%Z.

(** A [tar.Header] with the body that follows it. *)
Record TarEntry : Type := mkTarEntry {
  th_Name : string;
  th_Mode : Z;
  th_ModTime : Z;
  th_IsDir : bool;                  (* hdr.FileInfo().IsDir() *)
  th_body : Stream
}.

(** What [tar.Reader.Next] yields: the entries, then [io.EOF]
    ([tar_tail = None]) or a header error. *)
Record TarArchive : Type := mkTarArchive {
  tar_entries : list TarEntry;
  tar_tail : option error
}.

(** The collaborators of one extraction: the host ([runtime.GOOS]), the
    operating system, which decides from the calls made so far whether
    the next one fails, and the codec libraries. *)
Record Env : Type := mkEnv {
  runtime_GOOS : string;
  os_result : list Event -> Event -> option error;
  gzip_NewReader : Stream -> error + Stream;
  xz_NewReader : Stream -> error + Stream;
  bzip2_NewReader : Stream -> Stream;
  zip_NewReader : list byte -> error + list ZipFile;
  tar_NewReader : Stream -> TarArchive
}.

(** Computations that call the operating system. *)
Definition M (A : Type) : Type := list Event -> A * list Event.

Definition ret {A : Type} (a : A) : M A := fun tr => (a, tr).

Definition bind {A B : Type} (c : M A) (k : A -> M B) : M B :=
  fun tr => let '(a, tr') := c tr in k a tr'.

Notation "x <- c ;; k" := (bind c (fun x => k))
  (at level 61, c at next level, right associativity).
Notation "c ;;; k" := (bind c (fun _ => k))
  (at level 61, right associativity).

Definition call (E : Env) (ev : Event) : M (option error) :=
  fun tr => (os_result E tr ev, tr ++ [ev]).

Definition log (ev : Event) : M unit := fun tr => (tt, tr ++ [ev]).

(** [if err := x.Close(); err != nil { log.Println(err) }] for a file. *)
Definition close_file (E : Env) (name : string) : M unit :=
  err <- call E (Close name) ;;
  match err with
  | Some e => log (LogPrintln e)
  | None => ret tt
  end.

(** The same for the reader of a ZIP entry. *)
Definition close_entry (rc : ReadCloser) : M unit :=
  match rc_close rc with
  | Some e => log (LogPrintln e)
  | None => ret tt
  end.

(** The writes of a copy: nothing is written when nothing was read. *)
Definition write_all (E : Env) (name : string) (data : list byte)
  : M (option error) :=
  match data with
  | [] => ret None
  | _ => call E (Write name data)
  end.

(** [io.Copy(file, src)]. *)
Definition io_Copy (E : Env) (name : string) (src : Stream) : M (option error) :=
  werr <- write_all E name (payload src) ;;
  match werr with
  | Some e => ret (Some e)
  | None => ret (fault src)
  end.

(** [io.CopyN(file, src, n)]: copy through [io.LimitReader(src, n)], then
    [written == n] gives no error and [written < n] gives the reader's
    error or [io.EOF]. *)
Definition io_CopyN (E : Env) (name : string) (src : Stream) (n : Z)
  : M (option error) :=
  let data := firstn (Z.to_nat n) (payload src) in
  werr <- write_all E name data ;;
  match werr with
  | Some e => ret (Some e)
  | None =>
    let written := Z.of_nat (length data) in
    if (written =? n)%Z then ret None
    else if (written <? n)%Z then ret (Some (readErr src))
    else ret None
  end.

(* ================================================================= *)
(** ** Decompression adapters *)

(** Bunzip2Stream unpacks a bzip2 stream. *)
Definition Bunzip2Stream (E : Env) (reader : Stream)
  : option Stream * option error :=
  (Some (bufio_NewReader (bzip2_NewReader E reader)), None).

(** GunzipStream unpacks a gzipped stream. *)
Definition GunzipStream (E : Env) (reader : Stream)
  : option Stream * option error :=
  match gzip_NewReader E reader with
  | inl err => (None, Some err)
  | inr decompressingReader => (Some (bufio_NewReader decompressingReader), None)
  end.

(** UnxzStream unpacks a xz stream. *)
Definition UnxzStream (E : Env) (reader : Stream)
  : option Stream * option error :=
  match xz_NewReader E reader with
  | inl err => (None, Some err)
  | inr decompressingReader => (Some (bufio_NewReader decompressingReader), None)
  end.

Inductive Compression : Type := Gzip | Bzip2 | Xz.

(** The adapter selected by a compression kind. *)
Definition wrap (E : Env) (kind : Compression) (reader : Stream)
  : option Stream * option error :=
  match kind with
  | Gzip => GunzipStream E reader
  | Bzip2 => Bunzip2Stream E reader
  | Xz => UnxzStream E reader
  end.

(** What the codec library reports when its reader is constructed;
    [bzip2.NewReader] has no error result. *)
Definition init_error (E : Env) (kind : Compression) (reader : Stream)
  : option error :=
  match kind with
  | Gzip => match gzip_NewReader E reader with inl e => Some e | inr _ => None end
  | Xz => match xz_NewReader E reader with inl e => Some e | inr _ => None end
  | Bzip2 => None
  end.

(** A bzip2 stream with a malformed header: the decoder delivers no byte
    and its first read fails. *)
Definition bzip2_header_malformed (E : Env) (reader : Stream) : Prop :=
  payload (bzip2_NewReader E reader) = []
  /\ fault (bzip2_NewReader E reader) <> None.

(* ================================================================= *)
(** ** ZIP extraction *)

Definition unzipFile (E : Env) (f : ZipFile) (destPath : string)
  : M (option error) :=
  if FileMode_IsDir (zf_Mode f) then
    err <- call E (MkdirAll (filepath.Join destPath (zf_Name f))
                            (FileMode_Perm (zf_Mode f))) ;;
    match err with
    | Some e => ret (Some e)
    | None => ret None
    end
  else
    match zf_Open f with
    | inl err => ret (Some err)
    | inr rc =>
      let filePath := sanitize (runtime_GOOS E) (zf_Name f) in
      let destPath := filepath.Join destPath filePath in
      (* If directories were not included in the archive but are part of
         the file name, we create them relative to the destination path. *)
      let fileDir := filepath.Dir destPath in
      lerr <- call E (Lstat fileDir) ;;
      mkerr <- match lerr with
               | Some _ => call E (MkdirAll fileDir 448)       (* 0700 *)
               | None => ret None
               end ;;
      match mkerr with
      | Some e => close_entry rc ;;; ret (Some e)
      | None =>
        cerr <- call E (Create destPath) ;;
        match cerr with
        | Some e => close_entry rc ;;; ret (Some e)
        | None =>
          perr <- call E (Chmod destPath (zf_Mode f)) ;;
          match perr with
          | Some e => log (LogWarnPerm destPath e)
          | None => ret tt
          end ;;;
          terr <- call E (Chtimes destPath (zf_ModTime f)) ;;
          match terr with
          | Some e => log (LogWarnTimes destPath e)
          | None => ret tt
          end ;;;
          copyerr <- io_CopyN E destPath (rc_stream rc)
                              (int64 (zf_UncompressedSize64 f)) ;;
          close_file E destPath ;;;
          close_entry rc ;;;
          ret copyerr
        end
      end
    end.

Fixpoint unpackZip (E : Env) (files : list ZipFile) (destPath : string)
  : M (string * option error) :=
  match files with
  | [] => ret (destPath, None)
  | f :: rest =>
    err <- unzipFile E f destPath ;;
    match err with
    | Some e => ret ("", Some e)
    | None => unpackZip E rest destPath
    end
  end.

(** UnzipStream unpacks a ZIP stream. Because of the nature of the ZIP
    format, the stream is copied to memory before decompression. *)
Definition UnzipStream (E : Env) (r : Stream) (destPath : string)
  : M (string * option error) :=
  match fault r with                       (* ioutil.ReadAll *)
  | Some e => ret ("", Some e)
  | None =>
    match zip_NewReader E (payload r) with
    | inl e => ret ("", Some e)
    | inr files => unpackZip E files destPath
    end
  end.

(* ================================================================= *)
(** ** TAR extraction *)

Definition untarFile (E : Env) (hdr : TarEntry) (fp rootdir : string)
  : M (string * option error) :=
  let parentDir := fst (filepath.Split fp) in
  mkerr <- call E (MkdirAll parentDir 480) ;;                 (* 0740 *)
  match mkerr with
  | Some e => ret (rootdir, Some e)
  | None =>
    cerr <- call E (Create fp) ;;
    match cerr with
    | Some e => ret (rootdir, Some e)
    | None =>
      perr <- call E (Chmod fp (FileMode_of_int64 (th_Mode hdr))) ;;
      match perr with
      | Some e => log (LogWarnPerm fp e)
      | None => ret tt
      end ;;;
      terr <- call E (Chtimes fp (th_ModTime hdr)) ;;
      match terr with
      | Some e => log (LogWarnTimes fp e)
      | None => ret tt
      end ;;;
      copyerr <- io_Copy E fp (th_body hdr) ;;
      close_file E fp ;;;
      match copyerr with
      | Some e => ret (rootdir, Some e)
      | None => ret (rootdir, None)
      end
    end
  end.

(** The loop of [Untar] over the headers still to come. *)
Fixpoint untar_loop (E : Env) (destPath : string) (entries : list TarEntry)
  (tail : option error) (rootdir : string) : M (string * option error) :=
  match entries with
  | [] =>
    match tail with
    | None => ret (rootdir, None)            (* io.EOF: end of tar archive *)
    | Some e => ret (rootdir, Some e)
    end
  | hdr :: rest =>
    (* Skip pax_global_header with the commit ID this archive was created from *)
    if String.eqb (th_Name hdr) "pax_global_header" then
      untar_loop E destPath rest tail rootdir
    else
      let fp := filepath.Join destPath (sanitize (runtime_GOOS E) (th_Name hdr)) in
      if th_IsDir hdr then
        let rootdir := if String.eqb rootdir destPath then fp else rootdir in
        err <- call E (MkdirAll fp (FileMode_of_int64 (th_Mode hdr))) ;;
        match err with
        | Some e => ret (rootdir, Some e)
        | None => untar_loop E destPath rest tail rootdir
        end
      else
        r <- untarFile E hdr fp rootdir ;;
        match snd r with
        | Some e => ret (rootdir, Some e)
        | None => untar_loop E destPath rest tail rootdir
        end
  end.

(** Untar unarchives a TAR archive and returns the final destination path
    or an error. *)
Definition Untar (E : Env) (data : Stream) (destPath : string)
  : M (string * option error) :=
  (* Makes sure destPath exists *)
  err <- call E (MkdirAll destPath 480) ;;
  match err with
  | Some e => ret ("", Some e)
  | None =>
    let tr := tar_NewReader E data in
    untar_loop E destPath (tar_entries tr) (tar_tail tr) destPath
  end.

(* ================================================================= *)
(** ** The pipeline *)

Definition lift {A : Type} (c : M A) : M (result A) :=
  a <- c ;; ret (Returns a).

(** The tail of [UnpackStream], once the compression layer is open. *)
Definition unpack_decompressed (E : Env) (decompressingReader : Stream)
  (destPath : string) : M (result (string * option error)) :=
  (* Check magic number in offset 257 too see if this is also a TAR file *)
  match magicNumber decompressingReader 257 with
  | Panics msg => ret (Panics msg)
  | Returns (_, Some e) => ret (Returns ("", Some e))
  | Returns (ftype, None) =>
    if String.eqb ftype "tar" then lift (Untar E decompressingReader destPath)
    else
      (* If it's not a TAR archive then save it to disk as is. *)
      let destRawFile :=
        filepath.Join destPath
                      (sanitize (runtime_GOOS E) (path.Base "unknown-pack")) in
      cerr <- call E (Create destRawFile) ;;
      match cerr with
      | Some e => ret (Returns ("", Some e))
      | None =>
        copyerr <- io_Copy E destRawFile decompressingReader ;;
        close_file E destRawFile ;;;
        match copyerr with
        | Some e => ret (Returns ("", Some e))
        | None => ret (Returns (destPath, None))
        end
      end
  end.

(** UnpackStream unpacks a compressed stream. *)
Definition UnpackStream (E : Env) (reader : Stream) (destPath : string)
  : M (result (string * option error)) :=
  let r := bufio_NewReader reader in
  (* Reads magic number from the stream so we can better determine how to proceed *)
  match magicNumber r 0 with
  | Panics msg => ret (Panics msg)
  | Returns (_, Some e) => ret (Returns ("", Some e))
  | Returns (ftype, None) =>
    if String.eqb ftype "gzip" then
      match GunzipStream E r with
      | (_, Some e) => ret (Returns ("", Some e))
      | (None, None) => ret (Panics "nil pointer dereference")
      | (Some decompressingReader, None) =>
        unpack_decompressed E decompressingReader destPath
      end
    else if String.eqb ftype "xz" then
      match UnxzStream E r with
      | (_, Some e) => ret (Returns ("", Some e))
      | (None, None) => ret (Panics "nil pointer dereference")
      | (Some decompressingReader, None) =>
        unpack_decompressed E decompressingReader destPath
      end
    else if String.eqb ftype "bzip" then
      match Bunzip2Stream E r with
      | (_, Some e) => ret (Returns ("", Some e))
      | (None, None) => ret (Panics "nil pointer dereference")
      | (Some decompressingReader, None) =>
        unpack_decompressed E decompressingReader destPath
      end
    else if String.eqb ftype "zip" then
      (* Like TAR, ZIP is also an archiving format, therefore we can just
         return after it finishes *)
      lift (UnzipStream E r destPath)
    else
      unpack_decompressed E r destPath
  end.

(** The stream handed to the second sniff, by the tag of the first. *)
Definition decompressed (E : Env) (ftype : string) (r : Stream) : option Stream :=
  if String.eqb ftype "gzip" then fst (GunzipStream E r)
  else if String.eqb ftype "xz" then fst (UnxzStream E r)
  else if String.eqb ftype "bzip" then fst (Bunzip2Stream E r)
  else Some r.

(** Where [Untar]'s result comes from: the first directory entry, other
    than the skipped global header, whose path under the destination is
    not the destination itself. *)
Fixpoint first_dir_root (E : Env) (destPath : string) (entries : list TarEntry)
  : string :=
  match entries with
  | [] => destPath
  | hdr :: rest =>
    let fp := filepath.Join destPath (sanitize (runtime_GOOS E) (th_Name hdr)) in
    if negb (String.eqb (th_Name hdr) "pax_global_header")
       && th_IsDir hdr && negb (String.eqb fp destPath)
    then fp
    else first_dir_root E destPath rest
  end.

(** The first path element of a sanitized entry name. *)
Definition top_level (GOOS : string) (name : string) : string :=
  string_of_list_ascii
    (pathspec.take_elem (list_ascii_of_string (sanitize GOOS name))).

(** The write events of a copy of [data] into [name]. *)
Definition writes (name : string) (data : list byte) : list Event :=
  match data with
  | [] => []
  | _ => [Write name data]
  end.

(** The events of a trace that are not log lines. *)
Definition calls_of (tr : list Event) : list Event :=
  filter (fun ev => negb (is_log ev)) tr.

(** Where a ZIP file entry lands, and the bytes its header declares. *)
Definition zip_target (E : Env) (destPath : string) (f : ZipFile) : string :=
  filepath.Join destPath (sanitize (runtime_GOOS E) (zf_Name f)).

Definition declared_bytes (f : ZipFile) (rc : ReadCloser) : list byte :=
  firstn (Z.to_nat (zf_UncompressedSize64 f)) (payload (rc_stream rc)).

(** The calls that make sure the parent directory exists. *)
Definition ensure_dir (E : Env) (tr : list Event) (dir : string) : list Event :=
  Lstat dir ::
  match os_result E tr (Lstat dir) with
  | Some _ => [MkdirAll dir 448]
  | None => []
  end.

(* ================================================================= *)
(** ** Sample inputs *)

Module Samples.

(** An operating system on which every call succeeds. *)
Definition os_ok (history : list Event) (ev : Event) : option error := None.

(** Codec libraries that check the leading magic and give up on the
    body; archives are supplied ready parsed. *)
Definition header_only (sig : list byte) (s : Stream) : error + Stream :=
  if has_signature sig (payload s)
  then inr (mkStream [] (Some "unexpected EOF"))
  else inl "invalid header".

Definition env (files : list ZipFile) (archive : TarArchive) : Env :=
  {| runtime_GOOS := "linux";
     os_result := os_ok;
     gzip_NewReader := header_only magicGZ;
     xz_NewReader := header_only magicXZ;
     bzip2_NewReader := fun s =>
       if has_signature [x42; x5a; x68] (payload s)             (* "BZh" *)
       then mkStream [] (Some "unexpected EOF")
       else mkStream [] (Some "bzip2 data invalid: bad magic value");
     zip_NewReader := fun _ => inr files;
     tar_NewReader := fun _ => archive |}.

Definition no_archive : TarArchive := mkTarArchive [] None.

Definition empty_stream : Stream := mkStream [] None.

(** Eleven bytes of text. *)
Definition short_stream : Stream :=
  mkStream [x68; x65; x6c; x6c; x6f; x20; x77; x6f; x72; x6c; x64] None.

(** Three hundred zero bytes: no signature at offset 0 nor at 257. *)
Definition blob : Stream := mkStream (repeat x00 300) None.

(** A gzip member header followed by zeros. *)
Definition gz_stream : Stream :=
  mkStream ([x1f; x8b; x08; x00] ++ repeat x00 16) None.

Definition dir_mode : Z := (2 ^ 31 + 493)%Z.          (* ModeDir | 0755 *)

(** A ZIP directory entry whose name climbs out of the destination. *)
Definition evil_dir : ZipFile :=
  mkZipFile "../evil/" dir_mode 0 0 (inl "is a directory").

Definition readme_bytes : list byte := [x68; x65; x6c; x6c; x6f].

(** A ZIP file entry of five bytes. *)
Definition readme : ZipFile :=
  mkZipFile "docs/readme.txt" 420 1700000000 5
            (inr (mkReadCloser (mkStream readme_bytes None) None)).

Definition tar_dir (name : string) : TarEntry :=
  mkTarEntry name 493 0 true (mkStream [] None).

Definition tar_file (name : string) (body : list byte) : TarEntry :=
  mkTarEntry name 420 0 false (mkStream body None).

(** An archive with two top-level directories. *)
Definition two_roots : TarArchive :=
  mkTarArchive
    [tar_dir "a/"; tar_file "a/x.txt" readme_bytes;
     tar_dir "b/"; tar_file "b/y.txt" readme_bytes]
    None.

End Samples.

(* ================================================================= *)
(** ** Vocabulary for further properties *)

(** The test of [sanitize]'s first statement: a colon as second byte, on
    a Windows host. *)
Definition drive_label (GOOS : string) (name : string) : bool :=
  (1 <? String.length name)
  && match String.get 1 name with
     | Some c => Ascii.eqb c ":"%char
     | None => false
     end
  && String.eqb GOOS "windows".

(** The name [sanitize] goes on with. *)
Definition drop_drive_label (GOOS : string) (name : string) : string :=
  if drive_label GOOS name
  then String.substring 2 (String.length name - 2) name
  else name.

(** The line logged for a call that failed. *)
Definition logged (warn : error -> Event) (r : option error) : list Event :=
  match r with
  | Some e => [warn e]
  | None => []
  end.

(** The tags [magicNumber] can return. *)
Definition known_tags : list string := ["tar"; "zip"; "gzip"; "bzip"; "xz"; ""].

(** The signatures with their tags. *)
Definition signatures : list (list byte * string) :=
  [(magicTAR, "tar"); (magicZIP, "zip"); (magicGZ, "gzip");
   (magicBZIP, "bzip"); (magicXZ, "xz")].

(** The path an operating-system call names. *)
Definition event_path (ev : Event) : option string :=
  match ev with
  | MkdirAll p _ | Lstat p | Create p | Chmod p _ | Chtimes p _
  | Write p _ | Close p => Some p
  | LogPrintln _ | LogWarnPerm _ _ | LogWarnTimes _ _ => None
  end.

(** The paths the extraction of one ZIP entry may name. *)
Definition zip_paths (E : Env) (destPath : string) (f : ZipFile) : list string :=
  if FileMode_IsDir (zf_Mode f) then [filepath.Join destPath (zf_Name f)]
  else [zip_target E destPath f; filepath.Dir (zip_target E destPath f)].

Definition is_pax (hdr : TarEntry) : bool :=
  String.eqb (th_Name hdr) "pax_global_header".

(** The paths the extraction of one TAR entry may name. *)
Definition tar_paths (E : Env) (destPath : string) (hdr : TarEntry)
  : list string :=
  if is_pax hdr then []
  else
    let fp := filepath.Join destPath (sanitize (runtime_GOOS E) (th_Name hdr)) in
    if th_IsDir hdr then [fp] else [fp; fst (filepath.Split fp)].

(** Every call of a trace names one of the given paths. *)
Definition within_paths (allowed : list string) (tr : list Event) : Prop :=
  Forall (fun ev => forall p, event_path ev = Some p -> In p allowed) tr.

(** Files held open: a successful [Create] opens, [Close] releases. *)
Fixpoint remove_first (p : string) (l : list string) : list string :=
  match l with
  | [] => []
  | q :: l' => if String.eqb p q then l' else q :: remove_first p l'
  end.

Definition step_open (E : Env) (history : list Event) (ev : Event)
  (held : list string) : list string :=
  match ev with
  | Create p =>
    match os_result E history ev with
    | None => p :: held
    | Some _ => held
    end
  | Close p => remove_first p held
  | _ => held
  end.

(** The files held after the events [evs], made after [history]. *)
Fixpoint held_after (E : Env) (history evs : list Event) (held : list string)
  : list string :=
  match evs with
  | [] => held
  | ev :: rest =>
    held_after E (history ++ [ev]) rest (step_open E history ev held)
  end.

(** The largest number of files held at any moment of [evs]. *)
Fixpoint peak_held (E : Env) (history evs : list Event) (held : list string)
  : nat :=
  match evs with
  | [] => length held
  | ev :: rest =>
    Nat.max (length held)
            (peak_held E (history ++ [ev]) rest (step_open E history ev held))
  end.

(** Events that neither open nor release a file. *)
Definition quiet (ev : Event) : bool :=
  match ev with
  | Create _ | Close _ => false
  | _ => true
  end.

(** The events [evs], made after [history], release every file they
    open and hold at most one more file than was held before them. *)
Definition balanced (E : Env) (history evs : list Event) : Prop :=
  forall held,
    held_after E history evs held = held
    /\ peak_held E history evs held <= S (length held).

(** Further sample inputs. *)
Module MoreSamples.

(** A gzip library that, like the real one, rejects a member whose
    compression method is not deflate (8). *)
Definition strict_gzip (s : Stream) : error + Stream :=
  if has_signature [x1f; x8b; x08] (payload s)
  then inr (mkStream [] (Some "unexpected EOF"))
  else inl "gzip: invalid header".

Definition strict_env : Env :=
  {| runtime_GOOS := "linux";
     os_result := Samples.os_ok;
     gzip_NewReader := strict_gzip;
     xz_NewReader := Samples.header_only magicXZ;
     bzip2_NewReader := fun _ => mkStream [] (Some "unexpected EOF");
     zip_NewReader := fun _ => inl "zip: not a valid zip file";
     tar_NewReader := fun _ => Samples.no_archive |}.

(** The gzip signature followed by compression method 0. *)
Definition bad_gzip : Stream :=
  mkStream [x1f; x8b; x00; x00; x00; x00; x00; x00] None.

(** 257 zero bytes, [ustar], and zeros up to one 512-byte block. *)
Definition tar_block : Stream :=
  mkStream (repeat x00 257 ++ magicTAR ++ repeat x00 250) None.

(** A ZIP file entry that declares ten bytes and holds five. *)
Definition truncated : ZipFile :=
  mkZipFile "a.txt" 420 0 10
            (inr (mkReadCloser (mkStream Samples.readme_bytes None) None)).

(** A ZIP file entry that declares 2^63 bytes. *)
Definition oversized : ZipFile :=
  mkZipFile "a.txt" 420 0 (2 ^ 63)
            (inr (mkReadCloser (mkStream Samples.readme_bytes None) None)).

(** An operating system that refuses to change permission bits. *)
Definition os_no_chmod (history : list Event) (ev : Event) : option error :=
  match ev with
  | Chmod _ _ => Some "operation not permitted"
  | _ => None
  end.


(** The sample libraries on a given operating system. *)
Definition env_on (os : list Event -> Event -> option error)
  (files : list ZipFile) (archive : TarArchive) : Env :=
  {| runtime_GOOS := "linux";
     os_result := os;
     gzip_NewReader := Samples.header_only magicGZ;
     xz_NewReader := Samples.header_only magicXZ;
     bzip2_NewReader := fun _ => mkStream [] (Some "unexpected EOF");
     zip_NewReader := fun _ => inr files;
     tar_NewReader := fun _ => archive |}.

End MoreSamples.

(* ================================================================= *)
(** * Results *)

(** Rows of the standard library's own table for [Clean]. *)
Example Clean_table :
  map filepath.Clean
    [""; "abc"; "../../abc"; "/"; "abc/"; "../"; "abc//def//ghi"; "//abc//";
     "abc/./def"; "abc/def/ghi/../jkl"; "abc/def/../.."; "/abc/def/../..";
     "abc/def/../../.."; "/abc/def/../../..";
     "abc/def/../../../ghi/jkl/../../../mno"; "/../abc";
     "abc/../../././../def"]
  = ["."; "abc"; "../../abc"; "/"; "abc"; ".."; "abc/def/ghi"; "/abc";
     "abc/def"; "abc/def/jkl"; "."; "/";
     ".."; "/";
     "../../mno"; "/abc";
     "../../def"].
Proof. reflexivity. Qed.

(** The rows of [TestSanitize]. *)
Example TestSanitize (GOOS : string) :
  map (sanitize GOOS)
    ["../../.././etc/passwd"; "../../etc/passwd"; "./etc/passwd";
     "./././etc/passwd"; "nonexistant/b/../file.txt"; "abc../def";
     "a/b/c/../d"; "a/../../c"; "...../etc/password"]
  = ["etc/passwd"; "etc/passwd"; "etc/passwd";
     "etc/passwd"; "nonexistant/file.txt"; "abc../def";
     "a/b/d"; "c"; "...../etc/password"].
Proof. reflexivity. Qed.

Example Base_unknown_pack : path.Base "unknown-pack" = "unknown-pack".
Proof. reflexivity. Qed.

Example Dir_Split_table :
  filepath.Dir "/tmp/dest/a/b.txt" = "/tmp/dest/a"
  /\ filepath.Dir "b.txt" = "."
  /\ filepath.Split "/tmp/dest/a/b.txt" = ("/tmp/dest/a/", "b.txt")
  /\ filepath.Join "/tmp/dest" "a//b/" = "/tmp/dest/a/b".
Proof. repeat split; reflexivity. Qed.

(* ================================================================= *)
(** ** Facts about [filepath.Clean] *)

Module CleanFacts.
Import filepath pathspec.

Lemma sep_true (a : ascii) : IsPathSeparator a = true <-> a = Separator.
Proof. apply Ascii.eqb_eq. Qed.

Lemma backtrack_eq buf dd w :
  backtrack buf dd w =
  if (dd <? w) && negb (IsPathSeparator (nth w buf Separator)) then
    match w with S w' => backtrack buf dd w' | O => O end
  else w.
Proof. destruct w; reflexivity. Qed.

(** Scanning back from index [m + j] over separator-free bytes stops at
    [m] when [m] is the protected index or holds a separator. *)
Lemma backtrack_stop buf dd m j :
  (forall i, m < i <= m + j -> IsPathSeparator (nth i buf Separator) = false) ->
  dd <= m ->
  dd = m \/ IsPathSeparator (nth m buf Separator) = true ->
  backtrack buf dd (m + j) = m.
Proof.
  induction j as [|j IH]; intros Hns Hdd Hm.
  - rewrite Nat.add_0_r, backtrack_eq.
    destruct Hm as [-> | ->].
    + rewrite Nat.ltb_irrefl. reflexivity.
    + rewrite andb_false_r. reflexivity.
  - rewrite backtrack_eq.
    replace (m + S j) with (S (m + j)) by lia.
    rewrite (Hns (S (m + j))) by lia.
    replace (dd <? S (m + j)) with true by (symmetry; apply Nat.ltb_lt; lia).
    simpl. apply IH; auto. intros i Hi. apply Hns. lia.
Qed.

Lemma nosep_nth c i :
  nosep c = true -> i < length c -> IsPathSeparator (nth i c Separator) = false.
Proof.
  intros H Hi. unfold nosep in H. rewrite forallb_forall in H.
  specialize (H (nth i c Separator) (nth_In _ _ Hi)).
  now apply negb_true_iff in H.
Qed.

Lemma backtrack_elem X c dd :
  nosep c = true -> c <> [] -> dd = length X ->
  firstn (backtrack (X ++ c) dd (length (X ++ c) - 1)) (X ++ c) = X.
Proof.
  intros Hc Hne ->.
  destruct c as [|a c]; [congruence|].
  rewrite length_app. simpl length.
  replace (length X + S (length c) - 1) with (length X + length c) by lia.
  rewrite backtrack_stop; auto.
  - rewrite firstn_app, Nat.sub_diag, firstn_all. simpl. apply app_nil_r.
  - intros i Hi. rewrite app_nth2 by lia.
    apply nosep_nth; auto. simpl. lia.
Qed.

Lemma backtrack_slash_elem X c dd :
  nosep c = true -> dd <= length X ->
  firstn (backtrack (X ++ Separator :: c) dd (length (X ++ Separator :: c) - 1))
         (X ++ Separator :: c) = X.
Proof.
  intros Hc Hdd.
  rewrite length_app. simpl length.
  replace (length X + S (length c) - 1) with (length X + length c) by lia.
  rewrite backtrack_stop; auto.
  - rewrite firstn_app, Nat.sub_diag, firstn_all. simpl. apply app_nil_r.
  - intros i Hi. rewrite app_nth2 by lia.
    destruct (i - length X) as [|n] eqn:E; [lia|]. simpl.
    apply nosep_nth; auto. lia.
  - right. rewrite app_nth2 by lia. rewrite Nat.sub_diag. reflexivity.
Qed.

(** *** One iteration of the main loop, by kind of element *)

Lemma clean_loop_cons rooted c rest out dd :
  clean_loop rooted (c :: rest) out dd =
  if IsPathSeparator c then clean_loop rooted rest out dd
  else if is_dot c && end_or_sep rest then clean_loop rooted rest out dd
  else if is_dot c
          && match rest with
             | d :: rest2 => is_dot d && end_or_sep rest2
             | [] => false
             end then
    match rest with
    | _ :: rest2 =>
      let '(out', dotdot') := dotdot_elem rooted out dd in
      clean_loop rooted rest2 out' dotdot'
    | [] => out
    end
  else copy_elem rooted dd rest (add_slash rooted out ++ [c]).
Proof. reflexivity. Qed.

Lemma copy_elem_spec rooted dd c :
  forall rest o,
  nosep c = true -> end_or_sep rest = true ->
  copy_elem rooted dd (c ++ rest) o = clean_loop rooted rest (o ++ c) dd.
Proof.
  induction c as [|a c IH]; intros rest o Hc Hr.
  - rewrite app_nil_r. simpl.
    destruct rest as [|e rest]; [reflexivity|].
    simpl in Hr. unfold copy_elem. rewrite Hr. reflexivity.
  - simpl in Hc. apply andb_true_iff in Hc as [Ha Hc].
    apply negb_true_iff in Ha.
    change (copy_elem rooted dd ((a :: c) ++ rest) o)
      with (if IsPathSeparator a
            then clean_loop rooted ((a :: c) ++ rest) o dd
            else copy_elem rooted dd (c ++ rest) (o ++ [a])).
    rewrite Ha, IH by assumption.
    now rewrite <- app_assoc.
Qed.

Lemma step_sep rooted rest out dd :
  clean_loop rooted (Separator :: rest) out dd = clean_loop rooted rest out dd.
Proof. reflexivity. Qed.

Lemma step_dot rooted rest out dd :
  end_or_sep rest = true ->
  clean_loop rooted ("."%char :: rest) out dd = clean_loop rooted rest out dd.
Proof. intros H. rewrite clean_loop_cons. simpl. rewrite H. reflexivity. Qed.

Lemma step_dotdot rooted rest out dd :
  end_or_sep rest = true ->
  clean_loop rooted ("."%char :: "."%char :: rest) out dd =
  clean_loop rooted rest (fst (dotdot_elem rooted out dd))
             (snd (dotdot_elem rooted out dd)).
Proof.
  intros H. rewrite clean_loop_cons.
  change (IsPathSeparator "."%char) with false.
  change (is_dot "."%char) with true.
  change (end_or_sep ("."%char :: rest)) with false.
  cbv beta iota. simpl andb. rewrite H.
  destruct (dotdot_elem rooted out dd). reflexivity.
Qed.

Lemma step_normal rooted c rest out dd :
  normal c -> end_or_sep rest = true ->
  clean_loop rooted (c ++ rest) out dd =
  clean_loop rooted rest (add_slash rooted out ++ c) dd.
Proof.
  intros (Hne & Hns & Hd & Hdd) Hr.
  destruct c as [|a c]; [congruence|].
  simpl in Hns. apply andb_true_iff in Hns as [Ha Hc].
  apply negb_true_iff in Ha.
  simpl app. rewrite clean_loop_cons, Ha.
  assert (E1 : is_dot a && end_or_sep (c ++ rest) = false).
  { destruct (is_dot a) eqn:Edot; [|reflexivity]. simpl.
    apply Ascii.eqb_eq in Edot. subst a.
    destruct c as [|b c]; [congruence|].
    simpl in Hc. apply andb_true_iff in Hc as [Hb _].
    apply negb_true_iff in Hb. exact Hb. }
  rewrite E1.
  assert (E2 : is_dot a
          && match c ++ rest with
             | d :: rest2 => is_dot d && end_or_sep rest2
             | [] => false
             end = false).
  { destruct (is_dot a) eqn:Edot; [|reflexivity]. simpl.
    apply Ascii.eqb_eq in Edot. subst a.
    destruct c as [|b c]; [congruence|]. simpl.
    destruct (is_dot b) eqn:Eb; [|reflexivity]. simpl.
    apply Ascii.eqb_eq in Eb. subst b.
    simpl in Hc.
    destruct c as [|b c]; [unfold dotdot_name in Hdd; congruence|].
    simpl in Hc. apply andb_true_iff in Hc as [Hb _].
    apply negb_true_iff in Hb. exact Hb. }
  rewrite E2, copy_elem_spec by assumption.
  now rewrite <- app_assoc.
Qed.


(** *** Joining elements *)

Lemma join_cons c cs : cs <> [] -> join (c :: cs) = c ++ Separator :: join cs.
Proof. destruct cs; [congruence | reflexivity]. Qed.

Lemma join_app l1 l2 :
  l1 <> [] -> l2 <> [] -> join (l1 ++ l2) = join l1 ++ Separator :: join l2.
Proof.
  induction l1 as [|c l1 IH]; intros H1 H2; [congruence|].
  destruct l1 as [|c' l1].
  - simpl app. now rewrite join_cons.
  - change ((c :: c' :: l1) ++ l2) with (c :: (c' :: l1) ++ l2).
    rewrite join_cons by (simpl; congruence).
    rewrite IH by congruence.
    rewrite (join_cons c (c' :: l1)) by congruence.
    now rewrite <- app_assoc.
Qed.

Lemma join_nil l :
  Forall (fun c => c <> []) l -> join l = [] -> l = [].
Proof.
  intros H E. destruct l as [|c l]; [reflexivity|].
  inversion H; subst.
  destruct l; simpl in E.
  - congruence.
  - destruct c; [congruence | discriminate].
Qed.

Lemma normal_nonempty c : normal c -> c <> [].
Proof. now intros [H _]. Qed.

Lemma items_nonempty k stack :
  Forall normal stack ->
  Forall (fun c => c <> []) (repeat dotdot_name k ++ stack).
Proof.
  intros H. apply Forall_app. split.
  - apply Forall_forall. intros x Hx. apply repeat_spec in Hx. now subst.
  - eapply Forall_impl; [|exact H]. apply normal_nonempty.
Qed.

Lemma length_join_app_lt l1 l2 :
  Forall (fun c => c <> []) l2 -> l2 <> [] ->
  length (join l1) < length (join (l1 ++ l2)).
Proof.
  intros H Hne. destruct l1 as [|c l1].
  - simpl. destruct (join l2) eqn:E; [|simpl; lia].
    apply join_nil in E; auto. congruence.
  - rewrite join_app by congruence.
    rewrite length_app. simpl. lia.
Qed.

(** *** Pushing and popping elements keep the state well formed *)

Lemma push_rel items c :
  Forall (fun c => c <> []) items ->
  push false (join items) c = join (items ++ [c]).
Proof.
  intros H. unfold push, add_slash. simpl.
  destruct items as [|i items].
  - reflexivity.
  - rewrite join_app by congruence.
    destruct (join (i :: items)) eqn:E.
    + apply join_nil in E; [discriminate | assumption].
    + simpl. now rewrite <- app_assoc.
Qed.

Lemma push_rooted stack c :
  Forall (fun c => c <> []) stack ->
  push true (Separator :: join stack) c = Separator :: join (stack ++ [c]).
Proof.
  intros H. unfold push, add_slash. simpl.
  destruct stack as [|i stack].
  - reflexivity.
  - rewrite join_app by congruence.
    destruct (join (i :: stack)) eqn:E.
    + apply join_nil in E; [discriminate | assumption].
    + simpl. now rewrite <- app_assoc.
Qed.

Lemma push_ok rooted out dd c :
  state_ok rooted out dd -> normal c -> state_ok rooted (push rooted out c) dd.
Proof.
  destruct rooted; simpl.
  - intros (Hdd & stack & Hs & ->) Hc. split; [assumption|].
    exists (stack ++ [c]). split.
    + apply Forall_app. auto.
    + apply push_rooted. eapply Forall_impl; [|exact Hs]. apply normal_nonempty.
  - intros (k & stack & Hs & -> & Hdd) Hc.
    exists k, (stack ++ [c]). split; [|split].
    + apply Forall_app. auto.
    + rewrite app_assoc. apply push_rel. now apply items_nonempty.
    + assumption.
Qed.

Lemma normal_nosep c : normal c -> nosep c = true.
Proof. now intros (_ & H & _). Qed.

Lemma dotdot_elem_ok rooted out dd :
  state_ok rooted out dd ->
  state_ok rooted (fst (dotdot_elem rooted out dd)) (snd (dotdot_elem rooted out dd)).
Proof.
  destruct rooted; simpl.
  - intros (-> & stack & Hs & ->). split.
    + unfold dotdot_elem. destruct (1 <? _); reflexivity.
    + unfold dotdot_elem.
      destruct (1 <? length (Separator :: join stack)) eqn:E; simpl.
      * destruct (exists_last (l := stack)) as (s' & c & ->).
        { intros ->. simpl in E. discriminate. }
        apply Forall_app in Hs as [Hs' Hc]. inversion Hc; subst.
        exists s'. split; [assumption|].
        destruct s' as [|i s'].
        -- simpl app. simpl join.
           apply (backtrack_elem [Separator] c 1); auto using normal_nosep, normal_nonempty.
        -- rewrite join_app by congruence.
           apply (backtrack_slash_elem (Separator :: join (i :: s')) c 1).
           ++ now apply normal_nosep.
           ++ simpl. lia.
      * exists stack. auto.
  - intros (k & stack & Hs & -> & ->).
    unfold dotdot_elem.
    destruct (_ <? _) eqn:E; simpl.
    + apply Nat.ltb_lt in E.
      destruct (exists_last (l := stack)) as (s' & c & ->).
      { intros ->. rewrite app_nil_r in E. lia. }
      apply Forall_app in Hs as [Hs' Hc]. inversion Hc; subst.
      exists k, s'. split; [assumption|]. split; [|reflexivity].
      rewrite app_assoc.
      destruct (repeat dotdot_name k ++ s') as [|i items] eqn:Ei.
      * apply app_eq_nil in Ei as [Ek _]. rewrite Ek. simpl app. simpl join.
        apply (backtrack_elem [] c 0); auto using normal_nosep, normal_nonempty.
      * rewrite join_app by congruence.
        apply backtrack_slash_elem; [now apply normal_nosep|].
        rewrite <- Ei.
        destruct s' as [|j s'].
        -- rewrite app_nil_r. lia.
        -- apply Nat.lt_le_incl, length_join_app_lt; [|congruence].
           eapply Forall_impl; [|exact Hs']. apply normal_nonempty.
    + apply Nat.ltb_ge in E.
      assert (stack = []) as ->.
      { destruct stack as [|c stack]; [reflexivity|]. exfalso.
        pose proof (length_join_app_lt (repeat dotdot_name k) (c :: stack)) as L.
        assert (length (join (repeat dotdot_name k))
                < length (join (repeat dotdot_name k ++ c :: stack))).
        { apply L; [|congruence].
          eapply Forall_impl; [|exact Hs]. apply normal_nonempty. }
        lia. }
      rewrite app_nil_r.
      exists (S k), []. split; [constructor|].
      rewrite app_nil_r.
      assert (Ej : (if 0 <? length (join (repeat dotdot_name k))
                    then join (repeat dotdot_name k) ++ [Separator]
                    else join (repeat dotdot_name k)) ++ ["."%char; "."%char]
                   = join (repeat dotdot_name (S k))).
      { change (repeat dotdot_name (S k)) with (dotdot_name :: repeat dotdot_name k).
        rewrite repeat_cons.
        pose proof (push_rel (repeat dotdot_name k) dotdot_name) as P.
        unfold push, add_slash in P. simpl in P. rewrite <- P.
        - destruct (length (join (repeat dotdot_name k))); reflexivity.
        - apply Forall_forall. intros x Hx. apply repeat_spec in Hx. now subst. }
      rewrite Ej. auto.
Qed.


(** *** The loop keeps the state well formed on every input *)

Lemma take_drop_elem l : take_elem l ++ drop_elem l = l.
Proof.
  induction l as [|c t IH]; [reflexivity|].
  simpl. destruct (IsPathSeparator c); [reflexivity|].
  simpl. now rewrite IH.
Qed.

Lemma take_elem_nosep l : nosep (take_elem l) = true.
Proof.
  induction l as [|c t IH]; [reflexivity|].
  simpl. destruct (IsPathSeparator c) eqn:E; [reflexivity|].
  simpl. now rewrite E, IH.
Qed.

Lemma drop_elem_end_or_sep l : end_or_sep (drop_elem l) = true.
Proof.
  induction l as [|c t IH]; [reflexivity|].
  simpl. destruct (IsPathSeparator c) eqn:E; [exact E | exact IH].
Qed.

Lemma drop_elem_length l : length (drop_elem l) <= length l.
Proof.
  induction l as [|c t IH]; [reflexivity|].
  simpl. destruct (IsPathSeparator c); simpl; lia.
Qed.

Lemma loop_ok rooted n :
  forall path out dd,
  length path <= n -> state_ok rooted out dd ->
  exists dd', state_ok rooted (clean_loop rooted path out dd) dd'.
Proof.
  induction n as [|n IH]; intros path out dd Hn Hok.
  - destruct path; [|simpl in Hn; lia]. now exists dd.
  - destruct path as [|c rest]; [now exists dd|].
    simpl in Hn.
    destruct (IsPathSeparator c) eqn:Ec.
    + apply sep_true in Ec. subst c. rewrite step_sep. apply IH; [lia | assumption].
    + pose proof (take_drop_elem (c :: rest)) as Esplit.
      pose proof (take_elem_nosep (c :: rest)) as Hns.
      pose proof (drop_elem_end_or_sep (c :: rest)) as Hend.
      pose proof (drop_elem_length rest) as Hlen.
      simpl in Esplit, Hns, Hend. rewrite Ec in Esplit, Hns, Hend.
      set (e := c :: take_elem rest) in *.
      set (r := drop_elem rest) in *.
      change (c :: take_elem rest ++ r) with (e ++ r) in Esplit.
      rewrite <- Esplit.
      destruct (list_eq_dec ascii_dec e ["."%char]) as [E1 | N1].
      * rewrite E1. simpl app. rewrite step_dot by assumption.
        apply IH; [lia | assumption].
      * destruct (list_eq_dec ascii_dec e dotdot_name) as [E2 | N2].
        -- rewrite E2. unfold dotdot_name. simpl app.
           rewrite step_dotdot by assumption.
           apply IH; [lia|]. now apply dotdot_elem_ok.
        -- assert (Hnorm : normal e).
           { repeat split; auto. subst e. discriminate. }
           rewrite step_normal by assumption.
           apply IH; [lia|]. now apply push_ok.
Qed.

Lemma clean_bytes_cleaned path : cleaned (clean_bytes path).
Proof.
  destruct path as [|c rest]; [constructor|].
  unfold clean_bytes.
  destruct (IsPathSeparator c) eqn:Ec.
  - destruct (loop_ok true (length rest) rest [Separator] 1 (le_n _))
      as (dd' & _ & stack & Hs & ->).
    { split; [reflexivity|]. exists []. split; [constructor | reflexivity]. }
    simpl. now constructor.
  - destruct (loop_ok false (length (c :: rest)) (c :: rest) [] 0 (le_n _))
      as (dd' & k & stack & Hs & -> & _).
    { exists 0, []. split; [constructor|]. split; reflexivity. }
    destruct (length (join (repeat dotdot_name k ++ stack)) =? 0) eqn:E.
    + constructor.
    + constructor; [assumption|].
      intros Hnil. rewrite Hnil in E. discriminate.
Qed.

(** *** Cleaning a cleaned path changes nothing *)

Lemma run_stack rooted stack :
  Forall normal stack ->
  forall out dd,
  clean_loop rooted (join stack) out dd = fold_left (push rooted) stack out.
Proof.
  induction stack as [|c stack IH]; intros Hs out dd; [reflexivity|].
  inversion Hs as [|? ? Hc Hs']; subst.
  destruct stack as [|c' stack].
  - simpl join. rewrite <- (app_nil_r c) at 1.
    rewrite step_normal by auto. reflexivity.
  - rewrite join_cons by congruence.
    rewrite step_normal by auto.
    rewrite step_sep. now rewrite IH.
Qed.


Lemma fold_push_rel stack :
  forall items,
  Forall (fun c => c <> []) items -> Forall (fun c => c <> []) stack ->
  fold_left (push false) stack (join items) = join (items ++ stack).
Proof.
  induction stack as [|c stack IH]; intros items Hi Hs.
  - now rewrite app_nil_r.
  - inversion Hs; subst. simpl.
    rewrite push_rel by assumption.
    rewrite IH; [now rewrite <- app_assoc | | assumption].
    apply Forall_app. auto.
Qed.

Lemma fold_push_rooted stack :
  forall done,
  Forall (fun c => c <> []) done -> Forall (fun c => c <> []) stack ->
  fold_left (push true) stack (Separator :: join done)
  = Separator :: join (done ++ stack).
Proof.
  induction stack as [|c stack IH]; intros done Hd Hs.
  - now rewrite app_nil_r.
  - inversion Hs; subst. simpl.
    rewrite push_rooted by assumption.
    rewrite IH; [now rewrite <- app_assoc | | assumption].
    apply Forall_app. auto.
Qed.

Lemma repeat_nonempty k : Forall (fun c : list ascii => c <> []) (repeat dotdot_name k).
Proof.
  apply Forall_forall. intros x Hx. apply repeat_spec in Hx. now subst.
Qed.

Lemma dotdot_elem_dots i :
  dotdot_elem false (join (repeat dotdot_name i)) (length (join (repeat dotdot_name i)))
  = (join (repeat dotdot_name (S i)), length (join (repeat dotdot_name (S i)))).
Proof.
  unfold dotdot_elem. rewrite Nat.ltb_irrefl. simpl negb. cbv iota.
  assert (Ej : (if 0 <? length (join (repeat dotdot_name i))
                then join (repeat dotdot_name i) ++ [Separator]
                else join (repeat dotdot_name i)) ++ ["."%char; "."%char]
               = join (repeat dotdot_name (S i))).
  { change (repeat dotdot_name (S i)) with (dotdot_name :: repeat dotdot_name i).
    rewrite repeat_cons.
    pose proof (push_rel (repeat dotdot_name i) dotdot_name (repeat_nonempty i)) as P.
    unfold push, add_slash in P. simpl in P. rewrite <- P.
    destruct (length (join (repeat dotdot_name i))); reflexivity. }
  cbv zeta. now rewrite Ej.
Qed.

Lemma run_dots j :
  forall i stack,
  Forall normal stack ->
  clean_loop false (join (repeat dotdot_name j ++ stack))
             (join (repeat dotdot_name i)) (length (join (repeat dotdot_name i)))
  = join (repeat dotdot_name (i + j) ++ stack).
Proof.
  induction j as [|j IH]; intros i stack Hs.
  - simpl app. rewrite Nat.add_0_r, run_stack by assumption.
    apply fold_push_rel; [apply repeat_nonempty|].
    eapply Forall_impl; [|exact Hs]. apply normal_nonempty.
  - change (repeat dotdot_name (S j) ++ stack)
      with (dotdot_name :: (repeat dotdot_name j ++ stack)).
    destruct (repeat dotdot_name j ++ stack) as [|x items] eqn:E.
    + apply app_eq_nil in E as [Ej Es]. subst stack.
      replace j with 0 by (destruct j; [reflexivity | discriminate]).
      simpl join. unfold dotdot_name at 1.
      rewrite step_dotdot by reflexivity.
      rewrite dotdot_elem_dots. cbn [fst snd]. rewrite app_nil_r.
      replace (i + 1) with (S i) by lia. reflexivity.
    + rewrite join_cons by congruence. unfold dotdot_name at 1. cbn [app].
      rewrite step_dotdot by reflexivity.
      rewrite dotdot_elem_dots. cbn [fst snd].
      rewrite step_sep, <- E, IH by assumption.
      now replace (S i + j) with (i + S j) by lia.
Qed.

Lemma cleaned_fixed l : cleaned l -> clean_bytes l = l.
Proof.
  intros H. destruct H as [| stack Hs | k stack Hs Hne].
  - reflexivity.
  - unfold clean_bytes. change (IsPathSeparator Separator) with true. cbv iota.
    rewrite run_stack by assumption.
    change [Separator] with (Separator :: join []).
    rewrite (fold_push_rooted stack []); [reflexivity | constructor |].
    eapply Forall_impl; [|exact Hs]. apply normal_nonempty.
  - pose proof (run_dots k 0 stack Hs) as R. simpl in R.
    pose proof (items_nonempty k stack Hs) as Hitems.
    destruct (join (repeat dotdot_name k ++ stack)) as [|c rest] eqn:E.
    + apply join_nil in E; [contradiction | assumption].
    + assert (Hc : IsPathSeparator c = false).
      { destruct (repeat dotdot_name k ++ stack) as [|x items] eqn:Ei; [contradiction|].
        assert (Hx : nosep x = true /\ x <> []).
        { destruct k; simpl in Ei.
          - subst stack. inversion Hs; subst. split; [now apply normal_nosep | now apply normal_nonempty].
          - inversion Ei; subst. split; [reflexivity | discriminate]. }
        destruct Hx as [Hx Hxne].
        destruct x as [|a x]; [contradiction|].
        assert (c = a) as ->.
        { destruct items; simpl in E; congruence. }
        simpl in Hx. apply andb_true_iff in Hx as [Ha _].
        now apply negb_true_iff in Ha. }
      unfold clean_bytes. rewrite Hc, R. reflexivity.
Qed.


End CleanFacts.

(* ================================================================= *)
(** ** Facts about [sanitize] *)

Module SanitizeFacts.
Import filepath pathspec CleanFacts.

Lemma prefix_nil s : String.prefix "" s = true.
Proof. destruct s; reflexivity. Qed.

Lemma prefix_cons x s1 a s2 :
  String.prefix (String x s1) (String a s2) = Ascii.eqb x a && String.prefix s1 s2.
Proof.
  cbn [String.prefix].
  destruct (ascii_dec x a) as [-> | N].
  - now rewrite Ascii.eqb_refl.
  - apply Ascii.eqb_neq in N. now rewrite N.
Qed.

Lemma prefix_parent a b c rest :
  String.prefix "../" (String a (String b (String c rest)))
  = is_dot a && is_dot b && IsPathSeparator c.
Proof.
  rewrite !prefix_cons, prefix_nil, andb_true_r, andb_assoc.
  unfold is_dot, IsPathSeparator, Separator.
  now rewrite (Ascii.eqb_sym "." a), (Ascii.eqb_sym "." b), (Ascii.eqb_sym "/" c).
Qed.

Lemma prefix_short2 a : String.prefix "../" (String a "") = false.
Proof. rewrite prefix_cons. cbn [String.prefix]. apply andb_false_r. Qed.

Lemma prefix_short3 a b : String.prefix "../" (String a (String b "")) = false.
Proof. rewrite !prefix_cons. cbn [String.prefix]. now rewrite !andb_false_r. Qed.

Lemma strip_string n :
  forall l, length l <= n ->
  strip_parent_prefix (string_of_list_ascii l) = string_of_list_ascii (strip_list l).
Proof.
  induction n as [|n IH]; intros l Hn.
  - destruct l; [reflexivity | simpl in Hn; lia].
  - destruct l as [|a [|b [|c rest]]].
    + reflexivity.
    + cbn [string_of_list_ascii strip_parent_prefix strip_list].
      now rewrite prefix_short2.
    + cbn [string_of_list_ascii strip_parent_prefix strip_list].
      now rewrite prefix_short3.
    + cbn [string_of_list_ascii strip_parent_prefix strip_list].
      rewrite prefix_parent.
      destruct (is_dot a && is_dot b && IsPathSeparator c); [|reflexivity].
      apply IH. simpl in Hn. lia.
Qed.

Lemma sanitize_drop GOOS name :
  sanitize GOOS name
  = string_of_list_ascii
      (sanitize_bytes (list_ascii_of_string (drop_drive_label GOOS name))).
Proof.
  unfold sanitize, sanitize_bytes, ToSlash, Clean.
  fold (drive_label GOOS name). fold (drop_drive_label GOOS name).
  eapply strip_string. apply le_n.
Qed.

Lemma drop_none GOOS name :
  drive_label GOOS name = false -> drop_drive_label GOOS name = name.
Proof. intros H. unfold drop_drive_label. now rewrite H. Qed.

(** Without a drive label to drop the name is cleaned as it stands. *)
Lemma sanitize_eq GOOS name :
  drive_label GOOS name = false ->
  sanitize GOOS name
  = string_of_list_ascii (sanitize_bytes (list_ascii_of_string name)).
Proof. intros H. now rewrite sanitize_drop, drop_none. Qed.

Lemma drive_label_off_windows GOOS name :
  GOOS <> "windows" -> drive_label GOOS name = false.
Proof.
  intros H. unfold drive_label.
  apply String.eqb_neq in H. rewrite H. apply andb_false_r.
Qed.

Lemma strip_normal_head c rest :
  normal c -> end_or_sep rest = true -> strip_list (c ++ rest) = c ++ rest.
Proof.
  intros (Hne & Hns & Hd & Hdd) Hr.
  destruct c as [|a [|b [|x c]]]; [congruence | | |].
  - assert (Ha : is_dot a = false).
    { apply Ascii.eqb_neq. intros ->. now apply Hd. }
    destruct rest as [|r1 [|r2 rest]]; try reflexivity.
    simpl. now rewrite Ha.
  - assert (Hab : is_dot a && is_dot b = false).
    { destruct (is_dot a) eqn:Ea; [|reflexivity].
      destruct (is_dot b) eqn:Eb; [|reflexivity].
      apply Ascii.eqb_eq in Ea, Eb. subst. now elim Hdd. }
    destruct rest as [|r1 rest]; [reflexivity|].
    simpl. now rewrite Hab.
  - simpl in Hns.
    apply andb_true_iff in Hns as [_ Hns].
    apply andb_true_iff in Hns as [_ Hns].
    apply andb_true_iff in Hns as [Hx _].
    apply negb_true_iff in Hx.
    simpl. now rewrite Hx, andb_false_r.
Qed.

Lemma strip_join_stack stack :
  Forall normal stack -> strip_list (join stack) = join stack.
Proof.
  intros Hs. destruct stack as [|c stack]; [reflexivity|].
  inversion Hs; subst.
  destruct stack as [|c' stack].
  - simpl join. rewrite <- (app_nil_r c). now apply strip_normal_head.
  - rewrite join_cons by congruence. now apply strip_normal_head.
Qed.

Lemma strip_items k :
  forall stack, Forall normal stack ->
  strip_list (join (repeat dotdot_name k ++ stack))
  = match stack with
    | [] => match k with 0 => [] | S _ => dotdot_name end
    | _ :: _ => join stack
    end.
Proof.
  induction k as [|k IH]; intros stack Hs.
  - simpl app. rewrite strip_join_stack by assumption. now destruct stack.
  - change (repeat dotdot_name (S k) ++ stack)
      with (dotdot_name :: (repeat dotdot_name k ++ stack)).
    destruct (repeat dotdot_name k ++ stack) as [|x items] eqn:E.
    + apply app_eq_nil in E as [_ ->]. reflexivity.
    + rewrite join_cons by congruence. rewrite <- E.
      unfold dotdot_name at 1. cbn [app strip_list].
      change (is_dot "." && is_dot "." && IsPathSeparator Separator) with true.
      cbv iota. rewrite IH by assumption.
      destruct stack; [|reflexivity].
      destruct k; [discriminate | reflexivity].
Qed.

Lemma strip_not_dot a l : is_dot a = false -> strip_list (a :: l) = a :: l.
Proof.
  intros H. destruct l as [|b [|c rest]]; try reflexivity.
  simpl. now rewrite H.
Qed.

Lemma sanitize_bytes_sanitized l : sanitized (sanitize_bytes l).
Proof.
  unfold sanitize_bytes.
  destruct (clean_bytes_cleaned l) as [| stack Hs | k stack Hs Hne].
  - constructor.
  - rewrite strip_not_dot by reflexivity. now constructor.
  - rewrite strip_items by assumption.
    destruct stack as [|c stack].
    + destruct k; [now elim Hne | constructor].
    + now constructor.
Qed.


Lemma sanitized_cleaned l : sanitized l -> cleaned l.
Proof.
  intros [| | stack Hs | stack Hne Hs].
  - constructor.
  - apply (cl_rel 1 []); [constructor | discriminate].
  - now constructor.
  - apply (cl_rel 0 stack); assumption.
Qed.

Lemma sanitized_strip l : sanitized l -> strip_list l = l.
Proof.
  intros [| | stack Hs | stack Hne Hs]; try reflexivity.
  - now apply strip_not_dot.
  - now apply strip_join_stack.
Qed.

Lemma sanitized_fixed l : sanitized l -> sanitize_bytes l = l.
Proof.
  intros H. unfold sanitize_bytes.
  rewrite cleaned_fixed by now apply sanitized_cleaned.
  now apply sanitized_strip.
Qed.

Lemma sanitized_nonempty l : sanitized l -> l <> [].
Proof.
  intros [| | stack Hs | stack Hne Hs]; try discriminate.
  intros E. apply join_nil in E; [contradiction|].
  eapply Forall_impl; [|exact Hs]. apply normal_nonempty.
Qed.

(** The loop of [sanitize] leaves no leading [../]. *)
Lemma strip_parent_prefix_done n :
  forall s, String.length s <= n ->
  String.prefix "../" (strip_parent_prefix s) = false.
Proof.
  induction n as [|n IH]; intros s Hn.
  - destruct s; [reflexivity | simpl in Hn; lia].
  - destruct s as [|a [|b [|c rest]]].
    + reflexivity.
    + cbn [strip_parent_prefix]. rewrite prefix_short2. apply prefix_short2.
    + cbn [strip_parent_prefix]. rewrite prefix_short3. apply prefix_short3.
    + cbn [strip_parent_prefix].
      destruct (String.prefix "../" (String a (String b (String c rest)))) eqn:E.
      * apply IH. simpl in Hn. lia.
      * exact E.
Qed.

(** A second application changes nothing when it has no label to drop. *)
Lemma sanitize_twice GOOS P :
  drive_label GOOS (sanitize GOOS P) = false ->
  sanitize GOOS (sanitize GOOS P) = sanitize GOOS P.
Proof.
  intros Hlabel.
  rewrite (sanitize_eq GOOS (sanitize GOOS P)) by assumption.
  rewrite (sanitize_drop GOOS P).
  rewrite list_ascii_of_string_of_list_ascii.
  f_equal. apply sanitized_fixed, sanitize_bytes_sanitized.
Qed.

End SanitizeFacts.

(* ================================================================= *)
(** ** The path sanitizer: claims *)

(** C9. [sanitize] maps the table's inputs to the stated outputs:
    ["../../.././etc/passwd"] to ["etc/passwd"], ["./etc/passwd"] to
    ["etc/passwd"], ["a/b/c/../d"] to ["a/b/d"], ["a/../../c"] to ["c"],
    and ["...../etc/password"] to itself. *)
Theorem sanitize_table (GOOS : string) :
  sanitize GOOS "../../.././etc/passwd" = "etc/passwd"
  /\ sanitize GOOS "./etc/passwd" = "etc/passwd"
  /\ sanitize GOOS "a/b/c/../d" = "a/b/d"
  /\ sanitize GOOS "a/../../c" = "c"
  /\ sanitize GOOS "...../etc/password" = "...../etc/password".
Proof. repeat split; reflexivity. Qed.



(** On a host other than Windows that is every name. *)
Corollary sanitize_idempotent_off_windows (GOOS : string) (P : string) :
  GOOS <> "windows" ->
  sanitize GOOS (sanitize GOOS P) = sanitize GOOS P.
Proof.
  intros H. apply SanitizeFacts.sanitize_twice.
  now apply SanitizeFacts.drive_label_off_windows.
Qed.


(** C10. [sanitize] never returns the empty string; names that normalise
    away entirely (the empty string, ["."], ["a/.."]) give ["."]. *)
Theorem sanitize_nonempty (GOOS : string) :
  (forall P : string, sanitize GOOS P <> "")
  /\ sanitize GOOS "" = "." /\ sanitize GOOS "." = "."
  /\ sanitize GOOS "a/.." = ".".
Proof.
  split; [|repeat split; reflexivity].
  intros P E. rewrite SanitizeFacts.sanitize_drop in E.
  pose proof (SanitizeFacts.sanitize_bytes_sanitized
                (list_ascii_of_string (drop_drive_label GOOS P))) as H.
  apply SanitizeFacts.sanitized_nonempty in H.
  destruct (pathspec.sanitize_bytes (list_ascii_of_string (drop_drive_label GOOS P)));
    [now apply H | discriminate].
Qed.

(* ================================================================= *)
(** ** The magic sniffer *)

Module SnifferFacts.

Lemma int64_small z : (- 2 ^ 63 <= z < 2 ^ 63)%Z -> int64 z = z.
Proof.
  intros H. unfold int64.
  rewrite Z.mod_small by lia. lia.
Qed.

Lemma int64_wrapped z : (2 ^ 63 <= z < 2 ^ 63 + 2 ^ 63)%Z -> (int64 z < 0)%Z.
Proof.
  intros H. unfold int64.
  replace (z + 2 ^ 63)%Z with ((z - 2 ^ 63) + 1 * 2 ^ 64)%Z by lia.
  rewrite Z.mod_add by lia.
  rewrite Z.mod_small by lia. lia.
Qed.

Lemma Peek_ok b n hb :
  Peek b n = (hb, None) ->
  (0 <= n <= defaultBufSize)%Z
  /\ (n <= Z.of_nat (length (payload b)))%Z
  /\ hb = firstn (Z.to_nat n) (payload b).
Proof.
  unfold Peek.
  destruct (n <? 0)%Z eqn:E1; [discriminate|].
  destruct (defaultBufSize <? n)%Z eqn:E2; [discriminate|].
  destruct (Z.of_nat (length (payload b)) <? n)%Z eqn:E3; [discriminate|].
  intros H. inversion H; subst.
  apply Z.ltb_ge in E1, E2, E3. auto.
Qed.

Lemma window_slice (l : list byte) (a : nat) :
  a + 6 <= length l ->
  firstn 6 (skipn a (firstn (a + 6) l)) = firstn 6 (skipn a l).
Proof.
  intros H. rewrite skipn_firstn_comm.
  replace (a + 6 - a) with 6 by lia.
  now rewrite firstn_firstn.
Qed.

Lemma classify_agrees (magic : list byte) :
  length magic <= 6 ->
  (if bytes_Equal magicTAR (firstn 5 magic) then Returns ("tar", None)
   else if bytes_Equal magicZIP (firstn 4 magic) then Returns ("zip", None)
   else if bytes_Equal magicGZ (firstn 2 magic) then Returns ("gzip", None)
   else if bytes_Equal magicBZIP (firstn 2 magic) then Returns ("bzip", None)
   else if bytes_Equal magicXZ magic then Returns ("xz", None)
   else Returns ("", @None error))
  = Returns (classify_window magic, None).
Proof.
  intros H. unfold classify_window, has_signature.
  change (length magicTAR) with 5. change (length magicZIP) with 4.
  change (length magicGZ) with 2. change (length magicBZIP) with 2.
  change (length magicXZ) with 6.
  rewrite (firstn_all2 (n := 6) magic) by assumption.
  destruct (bytes_Equal magicTAR (firstn 5 magic)); [reflexivity|].
  destruct (bytes_Equal magicZIP (firstn 4 magic)); [reflexivity|].
  destruct (bytes_Equal magicGZ (firstn 2 magic)); [reflexivity|].
  destruct (bytes_Equal magicBZIP (firstn 2 magic)); [reflexivity|].
  destruct (bytes_Equal magicXZ magic); reflexivity.
Qed.

End SnifferFacts.

(** C5. Provided [offset + 6] bytes can be peeked, [magicNumber] returns
    without error the tag of the first signature, in the order TAR, ZIP,
    GZIP, BZIP2, XZ, found in the six bytes of the stream at [offset],
    and the empty tag when none is; it returns an error exactly when the
    peek fails, and then that error. *)
Theorem magicNumber_classifies (reader : Stream) (offset : Z) :
  (0 <= offset < 2 ^ 63)%Z ->
  magicNumber reader offset =
  match snd (Peek reader (int64 (offset + 6))) with
  | Some e => Returns ("", Some e)
  | None => Returns (classify_window (window_at reader offset), None)
  end.
Proof.
  intros Hoff. unfold magicNumber.
  destruct (Peek reader (int64 (offset + 6))) as [hb [e|]] eqn:EP; [reflexivity|].
  cbn [snd].
  apply SnifferFacts.Peek_ok in EP as (Hn & Hlen & ->).
  assert (Hi : int64 (offset + 6) = (offset + 6)%Z).
  { destruct (Z_lt_ge_dec (offset + 6) (2 ^ 63)) as [Hs | Hb].
    - apply SnifferFacts.int64_small. lia.
    - pose proof (SnifferFacts.int64_wrapped (offset + 6)). lia. }
  rewrite Hi in *.
  unfold slice.
  rewrite length_firstn.
  replace ((0 <=? offset)%Z) with true by (symmetry; apply Z.leb_le; lia).
  replace ((offset <=? offset + 6)%Z) with true by (symmetry; apply Z.leb_le; lia).
  replace ((offset + 6 <=? Z.of_nat (Nat.min (Z.to_nat (offset + 6)) (length (payload reader))))%Z)
    with true by (symmetry; apply Z.leb_le; lia).
  cbn [andb].
  replace (Z.to_nat (offset + 6 - offset)) with 6 by lia.
  replace (Z.to_nat (offset + 6)) with (Z.to_nat offset + 6) by lia.
  rewrite SnifferFacts.window_slice by lia.
  fold (window_at reader offset).
  apply SnifferFacts.classify_agrees.
  unfold window_at. rewrite length_firstn. lia.
Qed.

Lemma magicNumber_classifies_witness :
  (0 <= 0 < 2 ^ 63)%Z
  /\ magicNumber Samples.gz_stream 0 = Returns ("gzip", None).
Proof.
  split; [lia|].
  rewrite (magicNumber_classifies Samples.gz_stream 0); [reflexivity | lia].
Defined.

(* ================================================================= *)
(** ** Decompression adapters *)

(** C7, as the code has it. [GunzipStream] and [UnxzStream] fail at
    initialization, returning the error and no stream, exactly when the
    gzip or xz library rejects the stream while its reader is constructed
    (a malformed header, for one). [Bunzip2Stream] never fails at
    initialization: it always returns the decoding stream and no error,
    so a malformed bzip2 header shows only when that stream is read. *)
Theorem wrap_init_failure (E : Env) (reader : Stream) :
  (forall kind e,
     init_error E kind reader = Some e <-> wrap E kind reader = (None, Some e))
  /\ wrap E Bzip2 reader = (Some (bzip2_NewReader E reader), None).
Proof.
  split; [|reflexivity].
  intros kind e. destruct kind; simpl.
  - unfold GunzipStream. destruct (gzip_NewReader E reader); split; congruence.
  - unfold Bunzip2Stream. split; discriminate.
  - unfold UnxzStream. destruct (xz_NewReader E reader); split; congruence.
Qed.

Lemma wrap_init_failure_witness :
  init_error (Samples.env [] Samples.no_archive) Gzip Samples.empty_stream
  = Some "invalid header"
  /\ wrap (Samples.env [] Samples.no_archive) Gzip Samples.empty_stream
     = (None, Some "invalid header").
Proof.
  split; [reflexivity|].
  apply (proj1 (wrap_init_failure (Samples.env [] Samples.no_archive)
                                  Samples.empty_stream)).
  reflexivity.
Defined.

(** C7 as stated fails for bzip2: on a stream whose bzip2 header is
    malformed, [Bunzip2Stream] returns a stream and no error. *)
Lemma Bunzip2Stream_accepts_malformed_header :
  bzip2_header_malformed (Samples.env [] Samples.no_archive) Samples.empty_stream
  /\ fst (wrap (Samples.env [] Samples.no_archive) Bzip2 Samples.empty_stream) <> None
  /\ snd (wrap (Samples.env [] Samples.no_archive) Bzip2 Samples.empty_stream) = None.
Proof.
  split; [|split].
  - split; [reflexivity | discriminate].
  - discriminate.
  - reflexivity.
Qed.

(* ================================================================= *)
(** ** ZIP extraction *)

(** C3 fails on the code: for a directory entry the name is joined to the
    destination as it stands, without [sanitize]. The entry ["../evil/"]
    extracted to ["/tmp/dest"] creates ["/tmp/evil"], where the sanitized
    name gives ["/tmp/dest/evil"]. *)
Theorem unzipFile_directory_not_sanitized :
  unzipFile (Samples.env [] Samples.no_archive) Samples.evil_dir "/tmp/dest" []
  = (None, [MkdirAll "/tmp/evil" 493])
  /\ (forall GOOS,
        filepath.Join "/tmp/dest" (sanitize GOOS (zf_Name Samples.evil_dir))
        = "/tmp/dest/evil")
  /\ pathspec.inside "/tmp/dest" "/tmp/evil" = false.
Proof. repeat split; reflexivity. Qed.

Module ZipFacts.

Lemma calls_of_app a b : calls_of (a ++ b) = calls_of a ++ calls_of b.
Proof. apply filter_app. Qed.

Lemma calls_of_Close name l : calls_of (Close name :: l) = Close name :: calls_of l.
Proof. reflexivity. Qed.

Lemma write_all_ok E name data tr :
  (forall h, os_result E h (Write name data) = None) ->
  write_all E name data tr = (None, tr ++ writes name data).
Proof.
  intros H. unfold write_all, writes.
  destruct data; [unfold ret; now rewrite app_nil_r|].
  unfold call. now rewrite H.
Qed.

Lemma io_CopyN_exact E name src n tr :
  (0 <= n)%Z -> (n <= Z.of_nat (length (payload src)))%Z ->
  (forall h, os_result E h (Write name (firstn (Z.to_nat n) (payload src))) = None) ->
  io_CopyN E name src n tr
  = (None, tr ++ writes name (firstn (Z.to_nat n) (payload src))).
Proof.
  intros H0 Hlen Hw. unfold io_CopyN, bind.
  rewrite write_all_ok by assumption.
  rewrite length_firstn.
  replace (Z.of_nat (Nat.min (Z.to_nat n) (length (payload src))) =? n)%Z with true.
  - reflexivity.
  - symmetry. apply Z.eqb_eq. lia.
Qed.

(** Closing a file adds the call and at most a log line. *)
Lemma close_file_calls E name tr :
  exists logs, snd (close_file E name tr) = tr ++ Close name :: logs
               /\ calls_of logs = [].
Proof.
  unfold close_file, bind, call.
  destruct (os_result E tr (Close name)) as [e|].
  - exists [LogPrintln e]. unfold log. simpl. now rewrite <- app_assoc.
  - now exists [].
Qed.

Lemma close_entry_calls rc tr :
  exists logs, snd (close_entry rc tr) = tr ++ logs /\ calls_of logs = [].
Proof.
  unfold close_entry. destruct (rc_close rc) as [e|].
  - now exists [LogPrintln e].
  - exists []. unfold ret. simpl. now rewrite app_nil_r.
Qed.


Lemma close_file_run E name tr :
  exists logs, close_file E name tr = (tt, tr ++ Close name :: logs)
               /\ calls_of logs = [].
Proof.
  destruct (close_file_calls E name tr) as (logs & H1 & H2).
  exists logs. split; [|assumption].
  destruct (close_file E name tr) as [[] tr']. simpl in H1. now subst.
Qed.

Lemma close_entry_run rc tr :
  exists logs, close_entry rc tr = (tt, tr ++ logs) /\ calls_of logs = [].
Proof.
  destruct (close_entry_calls rc tr) as (logs & H1 & H2).
  exists logs. split; [|assumption].
  destruct (close_entry rc tr) as [[] tr']. simpl in H1. now subst.
Qed.

(** A best-effort call: its outcome only decides whether a line is logged. *)
Lemma best_effort_run E ev (warn : error -> Event) tr :
  (forall e, is_log (warn e) = true) ->
  exists logs,
    (perr <- call E ev ;;
     match perr with
     | Some e => log (warn e)
     | None => ret tt
     end) tr = (tt, tr ++ ev :: logs)
    /\ calls_of logs = [].
Proof.
  intros Hw. unfold bind, call, log, ret.
  destruct (os_result E tr ev) as [e|].
  - exists [warn e]. split; [now rewrite <- app_assoc|].
    unfold calls_of. simpl. now rewrite Hw.
  - now exists [].
Qed.

(** Run the deferred [Close] of file [p], then of the entry reader. *)
Ltac run_close_file E p :=
  match goal with
  | |- context [close_file E p ?t] =>
    let logs := fresh "logs" in
    let R := fresh "R" in
    let C := fresh "C" in
    destruct (close_file_run E p t) as (logs & R & C); rewrite R
  end.

Ltac run_close_entry rc :=
  match goal with
  | |- context [close_entry rc ?t] =>
    let logs := fresh "logs" in
    let R := fresh "R" in
    let C := fresh "C" in
    destruct (close_entry_run rc t) as (logs & R & C); rewrite R
  end.

(** The directory branch: one [MkdirAll] on the joined, unsanitized name. *)
Lemma unzipFile_directory E f destPath tr :
  FileMode_IsDir (zf_Mode f) = true ->
  unzipFile E f destPath tr
  = (os_result E tr (MkdirAll (filepath.Join destPath (zf_Name f))
                              (FileMode_Perm (zf_Mode f))),
     tr ++ [MkdirAll (filepath.Join destPath (zf_Name f))
                     (FileMode_Perm (zf_Mode f))]).
Proof.
  intros H. unfold unzipFile. rewrite H. unfold bind, call, ret.
  now destruct (os_result E tr _).
Qed.

End ZipFacts.

(** C6 fails on the code. For the regular entry [docs/readme.txt] of
    five bytes, on an operating system where every call succeeds,
    [unzipFile] applies the permission bits and the modification time
    right after creating the file and before it copies the entry: the
    claim has them applied after the copy, and the write that follows
    them is the last change the file sees. *)
Theorem unzipFile_metadata_precedes_copy :
  unzipFile (Samples.env [] Samples.no_archive) Samples.readme "/tmp/dest" []
  = (None,
     [Lstat "/tmp/dest/docs";
      Create "/tmp/dest/docs/readme.txt";
      Chmod "/tmp/dest/docs/readme.txt" 420;
      Chtimes "/tmp/dest/docs/readme.txt" 1700000000;
      Write "/tmp/dest/docs/readme.txt" Samples.readme_bytes;
      Close "/tmp/dest/docs/readme.txt"])
  /\ snd (unzipFile (Samples.env [] Samples.no_archive) Samples.readme
                    "/tmp/dest" [])
     <> [Lstat "/tmp/dest/docs";
         Create "/tmp/dest/docs/readme.txt";
         Write "/tmp/dest/docs/readme.txt" Samples.readme_bytes;
         Chmod "/tmp/dest/docs/readme.txt" 420;
         Chtimes "/tmp/dest/docs/readme.txt" 1700000000;
         Close "/tmp/dest/docs/readme.txt"].
Proof.
  assert (E : unzipFile (Samples.env [] Samples.no_archive) Samples.readme
                        "/tmp/dest" []
              = (None,
                 [Lstat "/tmp/dest/docs";
                  Create "/tmp/dest/docs/readme.txt";
                  Chmod "/tmp/dest/docs/readme.txt" 420;
                  Chtimes "/tmp/dest/docs/readme.txt" 1700000000;
                  Write "/tmp/dest/docs/readme.txt" Samples.readme_bytes;
                  Close "/tmp/dest/docs/readme.txt"])) by reflexivity.
  split; [exact E|]. rewrite E. discriminate.
Qed.

(** X26. The order of [unzipFile] on every regular entry. For a ZIP
    entry that is a regular file, whose reader opens and holds the
    declared byte count, and when creating the parent directory, creating
    the file and writing succeed, [unzipFile] returns no error and its
    trace is exactly: the check of the parent directory (made with mode
    0700 when the check fails), the creation of the file at the
    destination joined with the sanitized name, [Chmod] with the entry's
    mode and a warning when it failed, [Chtimes] with the entry's time
    and a warning when it failed, one write of exactly the declared
    bytes, the closing of the file and of the entry's reader, each
    followed by a log line when it failed. *)
Theorem unzipFile_regular_order (E : Env) (f : ZipFile) (rc : ReadCloser)
  (destPath : string) (tr : list Event) (perr terr cerr : option error) :
  FileMode_IsDir (zf_Mode f) = false ->
  zf_Open f = inr rc ->
  (0 <= zf_UncompressedSize64 f < 2 ^ 63)%Z ->
  (zf_UncompressedSize64 f <= Z.of_nat (length (payload (rc_stream rc))))%Z ->
  (forall h, os_result E h (MkdirAll (filepath.Dir (zip_target E destPath f)) 448) = None) ->
  (forall h, os_result E h (Create (zip_target E destPath f)) = None) ->
  (forall h, os_result E h (Write (zip_target E destPath f) (declared_bytes f rc)) = None) ->
  (forall h, os_result E h (Chmod (zip_target E destPath f) (zf_Mode f)) = perr) ->
  (forall h, os_result E h (Chtimes (zip_target E destPath f) (zf_ModTime f)) = terr) ->
  (forall h, os_result E h (Close (zip_target E destPath f)) = cerr) ->
  unzipFile E f destPath tr
  = (None,
     tr ++ ensure_dir E tr (filepath.Dir (zip_target E destPath f))
        ++ [Create (zip_target E destPath f);
            Chmod (zip_target E destPath f) (zf_Mode f)]
        ++ logged (LogWarnPerm (zip_target E destPath f)) perr
        ++ [Chtimes (zip_target E destPath f) (zf_ModTime f)]
        ++ logged (LogWarnTimes (zip_target E destPath f)) terr
        ++ writes (zip_target E destPath f) (declared_bytes f rc)
        ++ [Close (zip_target E destPath f)]
        ++ logged LogPrintln cerr
        ++ logged LogPrintln (rc_close rc)).
Proof.
  intros Hdir Hopen Hsize Hlen Hmk Hcreate Hwrite Hchmod Hchtimes Hclose.
  unfold unzipFile. rewrite Hdir, Hopen.
  fold (zip_target E destPath f).
  set (p := zip_target E destPath f) in *.
  set (dir := filepath.Dir p) in *.
  unfold ensure_dir, close_file, close_entry, bind, call, log, ret.
  rewrite SnifferFacts.int64_small by lia.
  destruct (os_result E tr (Lstat dir)) as [el|];
    [rewrite Hmk|]; rewrite Hcreate, Hchmod;
    destruct perr as [e1|]; rewrite Hchtimes;
    destruct terr as [e2|];
    rewrite ZipFacts.io_CopyN_exact by (try lia; exact Hwrite);
    fold (declared_bytes f rc);
    rewrite Hclose; destruct cerr as [e3|];
    destruct (rc_close rc) as [e4|];
    cbn [logged]; rewrite <- ?app_assoc; cbn [app]; rewrite ?app_nil_r;
    reflexivity.
Qed.

Lemma unzipFile_regular_order_witness :
  unzipFile (MoreSamples.env_on MoreSamples.os_no_chmod [] Samples.no_archive)
            Samples.readme "/tmp/dest" []
  = (None,
     [] ++ [Lstat "/tmp/dest/docs"]
        ++ [Create "/tmp/dest/docs/readme.txt";
            Chmod "/tmp/dest/docs/readme.txt" 420]
        ++ [LogWarnPerm "/tmp/dest/docs/readme.txt" "operation not permitted"]
        ++ [Chtimes "/tmp/dest/docs/readme.txt" 1700000000]
        ++ []
        ++ [Write "/tmp/dest/docs/readme.txt" Samples.readme_bytes]
        ++ [Close "/tmp/dest/docs/readme.txt"]
        ++ []
        ++ []).
Proof.
  apply (unzipFile_regular_order
           (MoreSamples.env_on MoreSamples.os_no_chmod [] Samples.no_archive)
           Samples.readme
           (mkReadCloser (mkStream Samples.readme_bytes None) None) "/tmp/dest" []
           (Some "operation not permitted") None None).
  - reflexivity.
  - reflexivity.
  - simpl. lia.
  - simpl. lia.
  - intros h. reflexivity.
  - intros h. reflexivity.
  - intros h. reflexivity.
  - intros h. reflexivity.
  - intros h. reflexivity.
  - intros h. reflexivity.
Defined.

(* ================================================================= *)
(** ** TAR extraction *)

Module TarFacts.

Lemma untar_loop_root E destPath entries tail :
  forall rootdir tr root tr',
  untar_loop E destPath entries tail rootdir tr = ((root, None), tr') ->
  root = if String.eqb rootdir destPath
         then first_dir_root E destPath entries
         else rootdir.
Proof.
  induction entries as [|hdr rest IH]; intros rootdir tr root tr' H.
  - simpl in H. destruct tail; inversion H; subst.
    destruct (String.eqb root destPath) eqn:Eq; [|reflexivity].
    now apply String.eqb_eq in Eq.
  - cbn [untar_loop first_dir_root] in *.
    destruct (String.eqb (th_Name hdr) "pax_global_header") eqn:Epax.
    + simpl. eapply IH. exact H.
    + cbn [negb andb].
      set (fp := filepath.Join destPath (sanitize (runtime_GOOS E) (th_Name hdr))) in *.
      destruct (th_IsDir hdr).
      * unfold bind, call in H.
        destruct (os_result E tr _); [discriminate|].
        apply IH in H.
        destruct (String.eqb rootdir destPath) eqn:Eroot; [|now rewrite Eroot in H].
        simpl. destruct (String.eqb fp destPath) eqn:Efp; assumption.
      * unfold bind in H.
        destruct (untarFile E hdr fp rootdir tr) as [[r1 [e|]] tr1]; simpl in H.
        -- discriminate.
        -- now apply IH in H.
Qed.

Lemma untar_returns E data destPath tr tr' root :
  Untar E data destPath tr = ((root, None), tr') ->
  root = first_dir_root E destPath (tar_entries (tar_NewReader E data)).
Proof.
  unfold Untar, bind, call. intros H.
  destruct (os_result E tr (MkdirAll destPath 480)); [discriminate|].
  apply untar_loop_root in H.
  now rewrite String.eqb_refl in H.
Qed.

End TarFacts.

(** C4, as the code has it. When [Untar] returns without error, its
    result is the destination joined with the sanitized name of the first
    directory entry (the global header aside) whose joined path differs
    from the destination, however many top-level directories the archive
    has; it is the destination itself only when there is no such entry. *)
Theorem Untar_returns_first_dir (E : Env) (data : Stream) (destPath : string)
  (tr tr' : list Event) (root : string) :
  Untar E data destPath tr = ((root, None), tr') ->
  root = first_dir_root E destPath (tar_entries (tar_NewReader E data)).
Proof.
  unfold Untar, bind, call. intros H.
  (* the destination is created first; a failure there is an error result *)
  destruct (os_result E tr (MkdirAll destPath 480)); [discriminate|].
  (* the loop starts with rootdir = destPath *)
  apply TarFacts.untar_loop_root in H.
  now rewrite String.eqb_refl in H.
Qed.

(** In particular, when the first entry is a directory below the
    destination, that directory is the result. *)
Lemma Untar_leading_directory (E : Env) (data : Stream) (destPath : string)
  (tr tr' : list Event) (root : string) (hdr : TarEntry) (rest : list TarEntry) :
  Untar E data destPath tr = ((root, None), tr') ->
  tar_entries (tar_NewReader E data) = hdr :: rest ->
  th_Name hdr <> "pax_global_header" ->
  th_IsDir hdr = true ->
  filepath.Join destPath (sanitize (runtime_GOOS E) (th_Name hdr)) <> destPath ->
  root = filepath.Join destPath (sanitize (runtime_GOOS E) (th_Name hdr)).
Proof.
  intros H He Hn Hd Hfp.
  apply TarFacts.untar_returns in H. rewrite He in H.
  cbn [first_dir_root] in H. rewrite Hd in H.
  apply String.eqb_neq in Hn, Hfp. now rewrite Hn, Hfp in H.
Qed.

Lemma Untar_returns_first_dir_witness :
  "/tmp/dest/a"
  = first_dir_root (Samples.env [] Samples.two_roots) "/tmp/dest"
      (tar_entries (tar_NewReader (Samples.env [] Samples.two_roots) Samples.blob)).
Proof.
  apply (Untar_returns_first_dir (Samples.env [] Samples.two_roots) Samples.blob
           "/tmp/dest" []
           (snd (Untar (Samples.env [] Samples.two_roots) Samples.blob "/tmp/dest" []))).
  reflexivity.
Defined.

(** C4 as stated fails: an archive with the two top-level directories
    [a] and [b] makes [Untar] return the first of them, not the
    destination. *)
Lemma Untar_two_roots_returns_first :
  map (top_level "linux") ["a/"; "b/"] = ["a"; "b"]
  /\ fst (Untar (Samples.env [] Samples.two_roots) Samples.blob "/tmp/dest" [])
     = ("/tmp/dest/a", None)
  /\ "/tmp/dest/a" <> "/tmp/dest".
Proof. repeat split; try reflexivity. discriminate. Qed.

(* ================================================================= *)
(** ** The pipeline *)

Module PipelineFacts.

Lemma magicNumber_ok_length s off tag :
  magicNumber s off = Returns (tag, None) ->
  (int64 (off + 6) <= Z.of_nat (length (payload s)))%Z.
Proof.
  unfold magicNumber.
  destruct (Peek s (int64 (off + 6))) as [hb [e|]] eqn:EP; [discriminate|].
  intros _. now apply SnifferFacts.Peek_ok in EP as (_ & H & _).
Qed.

Lemma io_Copy_ok E name src tr :
  fault src = None ->
  (forall h, os_result E h (Write name (payload src)) = None) ->
  io_Copy E name src tr = (None, tr ++ writes name (payload src)).
Proof.
  intros Hf Hw. unfold io_Copy, bind.
  rewrite ZipFacts.write_all_ok by assumption.
  unfold ret. now rewrite Hf.
Qed.

(** The fallback branch with its whole trace. *)
Lemma unpack_decompressed_saves E d destPath tr tag cerr :
  magicNumber d 257 = Returns (tag, None) ->
  tag <> "tar" ->
  fault d = None ->
  (forall h, os_result E h (Create (filepath.Join destPath "unknown-pack")) = None) ->
  (forall h, os_result E h (Write (filepath.Join destPath "unknown-pack") (payload d)) = None) ->
  (forall h, os_result E h (Close (filepath.Join destPath "unknown-pack")) = cerr) ->
  unpack_decompressed E d destPath tr
  = (Returns (destPath, None),
     tr ++ [Create (filepath.Join destPath "unknown-pack");
            Write (filepath.Join destPath "unknown-pack") (payload d);
            Close (filepath.Join destPath "unknown-pack")]
        ++ logged LogPrintln cerr).
Proof.
  intros Hm Htag Hf Hc Hw Hcl.
  pose proof (magicNumber_ok_length _ _ _ Hm) as Hlen.
  change (int64 (257 + 6)) with 263%Z in Hlen.
  unfold unpack_decompressed. rewrite Hm.
  replace (String.eqb tag "tar") with false
    by (symmetry; now apply String.eqb_neq).
  change (sanitize (runtime_GOOS E) (path.Base "unknown-pack")) with "unknown-pack".
  set (p := filepath.Join destPath "unknown-pack") in *.
  unfold bind, call. rewrite Hc.
  rewrite io_Copy_ok by assumption.
  unfold close_file, bind, call, log, ret. rewrite Hcl.
  unfold writes.
  destruct (payload d) as [|b bs]; [simpl in Hlen; lia|].
  destruct cerr as [e|]; cbn [logged]; rewrite <- ?app_assoc; reflexivity.
Qed.

End PipelineFacts.

(** C2 fails on the code. A stream of eleven bytes of text is neither
    ZIP nor TAR; the first sniff finds no signature in it, and the second
    sniff, which peeks 263 bytes, fails with [io.EOF]. [UnpackStream]
    returns that error with an empty path and touches no file: the
    stream is not saved as [unknown-pack], though the function's own
    comment says an unrecognised stream is saved as it is. *)
Theorem UnpackStream_short_stream_fails :
  magicNumber Samples.short_stream 0 = Returns ("", None)
  /\ magicNumber Samples.short_stream 257 = Returns ("", Some io_EOF)
  /\ UnpackStream (Samples.env [] Samples.no_archive) Samples.short_stream
                  "/tmp/dest" []
     = (Returns ("", Some io_EOF), []).
Proof. repeat split; reflexivity. Qed.

(** X27. Where the fallback does hold. When both sniffs succeed, the
    first tag is not ZIP, the compression layer (if any) opens and
    decodes without a read error, the second tag is not TAR, and creating
    and writing the output file succeed, [UnpackStream] returns the
    destination path and no error, and its trace is exactly: the creation
    of [unknown-pack] under the destination, one write of the bytes of
    the (possibly decompressed) stream, the closing of the file, and a
    log line when the closing failed. *)
Theorem UnpackStream_fallback (E : Env) (reader d : Stream) (destPath : string)
  (tr : list Event) (ftype tag : string) (cerr : option error) :
  magicNumber reader 0 = Returns (ftype, None) ->
  ftype <> "zip" ->
  decompressed E ftype reader = Some d ->
  magicNumber d 257 = Returns (tag, None) ->
  tag <> "tar" ->
  fault d = None ->
  (forall h, os_result E h (Create (filepath.Join destPath "unknown-pack")) = None) ->
  (forall h, os_result E h (Write (filepath.Join destPath "unknown-pack") (payload d)) = None) ->
  (forall h, os_result E h (Close (filepath.Join destPath "unknown-pack")) = cerr) ->
  UnpackStream E reader destPath tr
  = (Returns (destPath, None),
     tr ++ [Create (filepath.Join destPath "unknown-pack");
            Write (filepath.Join destPath "unknown-pack") (payload d);
            Close (filepath.Join destPath "unknown-pack")]
        ++ logged LogPrintln cerr).
Proof.
  intros H0 Hzip Hd Hm Htag Hf Hc Hw Hcl.
  unfold UnpackStream, bufio_NewReader. rewrite H0.
  unfold decompressed in Hd.
  destruct (String.eqb ftype "gzip").
  { unfold GunzipStream in *. destruct (gzip_NewReader E reader); [discriminate|].
    simpl in Hd. inversion Hd; subst.
    now apply PipelineFacts.unpack_decompressed_saves with (tag := tag). }
  destruct (String.eqb ftype "xz").
  { unfold UnxzStream in *. destruct (xz_NewReader E reader); [discriminate|].
    simpl in Hd. inversion Hd; subst.
    now apply PipelineFacts.unpack_decompressed_saves with (tag := tag). }
  destruct (String.eqb ftype "bzip").
  { unfold Bunzip2Stream in *. simpl in Hd. inversion Hd; subst.
    now apply PipelineFacts.unpack_decompressed_saves with (tag := tag). }
  replace (String.eqb ftype "zip") with false
    by (symmetry; now apply String.eqb_neq).
  inversion Hd; subst.
  now apply PipelineFacts.unpack_decompressed_saves with (tag := tag).
Qed.

Lemma UnpackStream_fallback_witness :
  UnpackStream (Samples.env [] Samples.no_archive) Samples.blob "/tmp/dest" []
  = (Returns ("/tmp/dest", None),
     [] ++ [Create "/tmp/dest/unknown-pack";
            Write "/tmp/dest/unknown-pack" (payload Samples.blob);
            Close "/tmp/dest/unknown-pack"]
        ++ []).
Proof.
  apply (UnpackStream_fallback (Samples.env [] Samples.no_archive) Samples.blob
           Samples.blob "/tmp/dest" [] "" "" None).
  - reflexivity.
  - discriminate.
  - reflexivity.
  - reflexivity.
  - discriminate.
  - reflexivity.
  - intros h. reflexivity.
  - intros h. reflexivity.
  - intros h. reflexivity.
Defined.

(* ================================================================= *)
(** ** Escaping the destination *)

(** C1 fails on the code. The loop of [sanitize] removes every leading
    ["../"], but a name that cleans to a bare [..] is returned as it is,
    and joining it to the destination gives the destination's parent. *)
Theorem sanitize_keeps_bare_parent (GOOS : string) :
  sanitize GOOS ".." = ".."
  /\ sanitize GOOS "a/../../.." = ".."
  /\ filepath.Join "/tmp/dest" (sanitize GOOS "..") = "/tmp"
  /\ pathspec.inside "/tmp/dest" (filepath.Join "/tmp/dest" (sanitize GOOS "..")) = false.
Proof. repeat split; reflexivity. Qed.

(** X1. The half of C1 that holds: no sanitized name begins with
    ["../"]. *)
Lemma sanitize_no_parent_prefix (GOOS : string) (P : string) :
  String.prefix "../" (sanitize GOOS P) = false.
Proof.
  unfold sanitize.
  eapply SanitizeFacts.strip_parent_prefix_done. apply le_n.
Qed.

Module EscapeFacts.
Import filepath pathspec CleanFacts SanitizeFacts.





End EscapeFacts.


(* ================================================================= *)
(** * Further properties *)

(** ** The sanitizer *)

Module SanitizeMore.
Import filepath pathspec CleanFacts SanitizeFacts.





End SanitizeMore.





(** A name of that shape with a drive label is not left unchanged on
    Windows. *)
Example sanitize_drops_label_of_sanitized_name :
  pathspec.sanitized (list_ascii_of_string "b:c")
  /\ sanitize "windows" "b:c" = "c"
  /\ sanitize "linux" "b:c" = "b:c".
Proof.
  split; [|split; reflexivity].
  apply (pathspec.san_rel [list_ascii_of_string "b:c"]).
  - discriminate.
  - repeat constructor; discriminate.
Qed.



(** With the label dropped a relative name can become rooted. *)
Example sanitize_label_then_root :
  sanitize "windows" "C:/x" = "/x" /\ sanitize "linux" "C:/x" = "C:/x".
Proof. split; reflexivity. Qed.

(* ================================================================= *)
(** ** The magic sniffer *)

Module SniffMore.

(** The sniffer at a non-negative offset, in one equation. *)
Lemma magicNumber_eq (reader : Stream) (offset : Z) :
  (0 <= offset < 2 ^ 63)%Z ->
  magicNumber reader offset =
  match snd (Peek reader (int64 (offset + 6))) with
  | Some e => Returns ("", Some e)
  | None => Returns (classify_window (window_at reader offset), None)
  end.
Proof.
  intros Hoff. unfold magicNumber.
  destruct (Peek reader (int64 (offset + 6))) as [hb [e|]] eqn:EP; [reflexivity|].
  cbn [snd].
  apply SnifferFacts.Peek_ok in EP as (Hn & Hlen & ->).
  assert (Hi : int64 (offset + 6) = (offset + 6)%Z).
  { destruct (Z_lt_ge_dec (offset + 6) (2 ^ 63)) as [Hs | Hb].
    - apply SnifferFacts.int64_small. lia.
    - pose proof (SnifferFacts.int64_wrapped (offset + 6)). lia. }
  rewrite Hi in *.
  unfold slice. rewrite length_firstn.
  replace ((0 <=? offset)%Z) with true by (symmetry; apply Z.leb_le; lia).
  replace ((offset <=? offset + 6)%Z) with true by (symmetry; apply Z.leb_le; lia).
  replace ((offset + 6 <=? Z.of_nat (Nat.min (Z.to_nat (offset + 6))
                                            (length (payload reader))))%Z)
    with true by (symmetry; apply Z.leb_le; lia).
  cbn [andb].
  replace (Z.to_nat (offset + 6 - offset)) with 6 by lia.
  replace (Z.to_nat (offset + 6)) with (Z.to_nat offset + 6) by lia.
  rewrite SnifferFacts.window_slice by lia.
  fold (window_at reader offset).
  apply SnifferFacts.classify_agrees.
  unfold window_at. rewrite length_firstn. lia.
Qed.

Lemma Peek_enough b n :
  (0 <= n <= defaultBufSize)%Z -> (n <= Z.of_nat (length (payload b)))%Z ->
  Peek b n = (firstn (Z.to_nat n) (payload b), None).
Proof.
  intros Hn Hl. unfold Peek.
  replace (n <? 0)%Z with false by (symmetry; apply Z.ltb_ge; lia).
  replace (defaultBufSize <? n)%Z with false by (symmetry; apply Z.ltb_ge; lia).
  now replace (Z.of_nat (length (payload b)) <? n)%Z with false
    by (symmetry; apply Z.ltb_ge; lia).
Qed.

Lemma Peek_short b n :
  (0 <= n <= defaultBufSize)%Z -> (Z.of_nat (length (payload b)) < n)%Z ->
  Peek b n = (payload b, Some (readErr b)).
Proof.
  intros Hn Hl. unfold Peek.
  replace (n <? 0)%Z with false by (symmetry; apply Z.ltb_ge; lia).
  replace (defaultBufSize <? n)%Z with false by (symmetry; apply Z.ltb_ge; lia).
  now replace (Z.of_nat (length (payload b)) <? n)%Z with true
    by (symmetry; apply Z.ltb_lt; lia).
Qed.

Lemma classify_known w : In (classify_window w) known_tags.
Proof.
  unfold classify_window, known_tags.
  repeat match goal with
         | |- context [if ?b then _ else _] => destruct b
         end; simpl; auto 10.
Qed.

(** The first signature of the table that heads a window decides. *)
Lemma classify_signature sig tag rest :
  In (sig, tag) signatures -> 6 <= length (sig ++ rest) ->
  classify_window (firstn 6 (sig ++ rest)) = tag.
Proof.
  unfold signatures. intros Hin Hlen.
  repeat (destruct Hin as [Hin | Hin];
          [inversion Hin; subst; clear Hin;
           repeat (destruct rest as [|? rest]; [simpl in Hlen; lia|]);
           reflexivity
          |]).
  contradiction.
Qed.

End SniffMore.

(** X6. Whatever the offset, a tag returned by [magicNumber] is one of
    ["tar"], ["zip"], ["gzip"], ["bzip"], ["xz"] and the empty tag, and
    it is the empty tag whenever an error comes with it. *)
Theorem magicNumber_tags (reader : Stream) (offset : Z) (tag : string)
  (err : option error) :
  magicNumber reader offset = Returns (tag, err) ->
  In tag known_tags /\ (err <> None -> tag = "").
Proof.
  unfold magicNumber.
  destruct (Peek reader (int64 (offset + 6))) as [hb [e|]].
  - intros H. inversion H; subst. split; [simpl; auto 10 | reflexivity].
  - destruct (slice hb offset (int64 (offset + 6))) as [magic|msg]; [|discriminate].
    intros H.
    assert (Herr : err = None /\ In tag known_tags).
    { repeat match type of H with
             | (if ?b then _ else _) = _ => destruct b
             end; inversion H; subst; split; simpl; auto 10. }
    destruct Herr as [-> Hin]. split; [assumption | congruence].
Qed.

Lemma magicNumber_tags_witness :
  In "gzip" known_tags /\ (@None error <> None -> "gzip" = "").
Proof.
  apply (magicNumber_tags Samples.gz_stream 0 "gzip" None).
  reflexivity.
Defined.

(** X7. A signature of the table at [offset], in a stream that holds at
    least six bytes from there (and [offset + 6] within the 4096 bytes of
    the buffer), is sniffed as its tag: the gzip, bzip2, xz and ZIP
    signatures at offset 0, [ustar] at offset 257. *)
Theorem magicNumber_finds_signature (reader : Stream) (offset : Z)
  (sig rest : list byte) (tag : string) :
  In (sig, tag) signatures ->
  (0 <= offset)%Z -> (offset + 6 <= defaultBufSize)%Z ->
  skipn (Z.to_nat offset) (payload reader) = sig ++ rest ->
  6 <= length (sig ++ rest) ->
  magicNumber reader offset = Returns (tag, None).
Proof.
  intros Hin H0 Hbuf Hskip Hlen.
  unfold defaultBufSize in Hbuf.
  assert (Hpl : (offset + 6 <= Z.of_nat (length (payload reader)))%Z).
  { rewrite <- Hskip, length_skipn in Hlen. lia. }
  rewrite SniffMore.magicNumber_eq by lia.
  rewrite SnifferFacts.int64_small by lia.
  rewrite SniffMore.Peek_enough by (unfold defaultBufSize; lia).
  cbn [snd]. unfold window_at. rewrite Hskip.
  now rewrite (SniffMore.classify_signature sig tag rest).
Qed.

Lemma magicNumber_finds_signature_witness :
  magicNumber MoreSamples.tar_block 257
  = Returns ("tar", None).
Proof.
  apply (magicNumber_finds_signature _ 257 magicTAR (repeat x00 250) "tar").
  - simpl. auto.
  - lia.
  - unfold defaultBufSize. lia.
  - reflexivity.
  - simpl. lia.
Defined.

(** X8. A stream that ends, or fails, before [offset + 6] bytes makes
    [magicNumber] return the empty tag with the read error: [io.EOF] for
    a stream that simply ends. *)
Theorem magicNumber_short_stream (reader : Stream) (offset : Z) :
  (0 <= offset)%Z -> (offset + 6 <= defaultBufSize)%Z ->
  (Z.of_nat (length (payload reader)) < offset + 6)%Z ->
  magicNumber reader offset = Returns ("", Some (readErr reader)).
Proof.
  intros H0 Hbuf Hshort. unfold defaultBufSize in Hbuf.
  rewrite SniffMore.magicNumber_eq by lia.
  rewrite SnifferFacts.int64_small by lia.
  now rewrite SniffMore.Peek_short by (unfold defaultBufSize; lia).
Qed.

Lemma magicNumber_short_stream_witness :
  magicNumber Samples.short_stream 257 = Returns ("", Some io_EOF).
Proof.
  apply (magicNumber_short_stream Samples.short_stream 257).
  - lia.
  - unfold defaultBufSize. lia.
  - simpl. lia.
Defined.

(* ================================================================= *)
(** ** The pipeline *)

Module PipelineMore.

Lemma magicNumber_returns reader offset :
  (0 <= offset < 2 ^ 63)%Z ->
  exists tag err, magicNumber reader offset = Returns (tag, err).
Proof.
  intros H. rewrite SniffMore.magicNumber_eq by assumption.
  destruct (snd (Peek reader (int64 (offset + 6)))); eauto.
Qed.

Lemma lift_run {A : Type} (c : M A) tr :
  lift c tr = (Returns (fst (c tr)), snd (c tr)).
Proof. unfold lift, bind, ret. now destruct (c tr). Qed.

Lemma unpack_decompressed_returns E d destPath tr :
  exists res tr', unpack_decompressed E d destPath tr = (Returns res, tr').
Proof.
  unfold unpack_decompressed.
  destruct (magicNumber_returns d 257) as (tag & err & ->); [lia|].
  destruct err as [e|]; [unfold ret; eauto|].
  destruct (String.eqb tag "tar").
  - rewrite lift_run. eauto.
  - unfold bind, call, ret.
    destruct (os_result E tr _); [eauto|].
    destruct (io_Copy E _ d _) as [copyerr t1].
    destruct (close_file E _ t1) as [[] t2].
    destruct copyerr; eauto.
Qed.

Lemma unpack_decompressed_short E d destPath tr :
  length (payload d) < 263 ->
  unpack_decompressed E d destPath tr = (Returns ("", Some (readErr d)), tr).
Proof.
  intros H. unfold unpack_decompressed.
  rewrite SniffMore.magicNumber_eq by lia.
  rewrite SnifferFacts.int64_small by lia.
  rewrite SniffMore.Peek_short by (unfold defaultBufSize; lia).
  reflexivity.
Qed.

(** The adapters return a stream or an error, never neither. *)
Lemma decompressed_cases E ftype reader :
  ftype <> "zip" ->
  (exists d, decompressed E ftype reader = Some d
             /\ forall destPath tr,
                  magicNumber reader 0 = Returns (ftype, None) ->
                  UnpackStream E reader destPath tr
                  = unpack_decompressed E d destPath tr)
  \/ (decompressed E ftype reader = None
      /\ exists e,
           (init_error E Gzip reader = Some e \/ init_error E Xz reader = Some e)
           /\ forall destPath tr,
                magicNumber reader 0 = Returns (ftype, None) ->
                UnpackStream E reader destPath tr = (Returns ("", Some e), tr)).
Proof.
  intros Hzip. unfold decompressed, UnpackStream, bufio_NewReader.
  destruct (String.eqb ftype "gzip") eqn:Eg.
  { unfold GunzipStream, init_error.
    destruct (gzip_NewReader E reader) as [e|d]; cbn [fst].
    - right. split; [reflexivity|]. exists e. split; [now left|].
      intros destPath tr ->. now rewrite Eg.
    - left. exists (bufio_NewReader d). split; [reflexivity|].
      intros destPath tr ->. now rewrite Eg. }
  destruct (String.eqb ftype "xz") eqn:Ex.
  { unfold UnxzStream, init_error.
    destruct (xz_NewReader E reader) as [e|d]; cbn [fst].
    - right. split; [reflexivity|]. exists e. split; [now right|].
      intros destPath tr ->. now rewrite Eg, Ex.
    - left. exists (bufio_NewReader d). split; [reflexivity|].
      intros destPath tr ->. now rewrite Eg, Ex. }
  destruct (String.eqb ftype "bzip") eqn:Eb.
  { left. eexists. split; [reflexivity|].
    intros destPath tr ->. now rewrite Eg, Ex, Eb. }
  left. exists reader. split; [reflexivity|].
  intros destPath tr ->. rewrite Eg, Ex, Eb.
  now replace (String.eqb ftype "zip") with false
    by (symmetry; now apply String.eqb_neq).
Qed.

End PipelineMore.

(** X9. [UnpackStream] never panics: whatever the stream, the codecs and
    the operating system do, it returns a path and an error value. *)
Theorem UnpackStream_never_panics (E : Env) (reader : Stream)
  (destPath : string) (tr : list Event) :
  exists res tr', UnpackStream E reader destPath tr = (Returns res, tr').
Proof.
  destruct (PipelineMore.magicNumber_returns reader 0) as (ftype & err & Hm); [lia|].
  destruct err as [e|].
  { unfold UnpackStream, bufio_NewReader. rewrite Hm. unfold ret. eauto. }
  destruct (string_dec ftype "zip") as [-> | Hzip].
  { unfold UnpackStream, bufio_NewReader. rewrite Hm. cbn [String.eqb Ascii.eqb Bool.eqb].
    rewrite PipelineMore.lift_run. eauto. }
  destruct (PipelineMore.decompressed_cases E ftype reader Hzip)
    as [(d & _ & Hrun) | (_ & e & _ & Hrun)].
  - rewrite Hrun by assumption. apply PipelineMore.unpack_decompressed_returns.
  - rewrite Hrun by assumption. eauto.
Qed.

(** X10. A stream of fewer than 263 bytes that is not compressed and not
    ZIP (fewer than six bytes, or no signature in the first six) cannot
    be saved as it is: the sniff fails, [UnpackStream] returns the empty
    path with the read error ([io.EOF] for a stream that simply ends) and
    makes no call to the operating system. *)
Theorem UnpackStream_small_stream (E : Env) (reader : Stream)
  (destPath : string) (tr : list Event) :
  length (payload reader) < 263 ->
  length (payload reader) < 6 \/ classify_window (window_at reader 0) = "" ->
  UnpackStream E reader destPath tr = (Returns ("", Some (readErr reader)), tr).
Proof.
  intros Hlen Hsig.
  destruct (Nat.lt_ge_cases (length (payload reader)) 6) as [Hs | Hl].
  - unfold UnpackStream, bufio_NewReader.
    rewrite SniffMore.magicNumber_eq by lia.
    rewrite SnifferFacts.int64_small by lia.
    rewrite SniffMore.Peek_short by (unfold defaultBufSize; lia).
    reflexivity.
  - destruct Hsig as [Hs | Hsig]; [lia|].
    unfold UnpackStream, bufio_NewReader.
    rewrite SniffMore.magicNumber_eq by lia.
    rewrite SnifferFacts.int64_small by lia.
    rewrite SniffMore.Peek_enough by (unfold defaultBufSize; lia).
    cbn [snd]. rewrite Hsig. cbn [String.eqb].
    now apply PipelineMore.unpack_decompressed_short.
Qed.

Lemma UnpackStream_small_stream_witness :
  UnpackStream (Samples.env [] Samples.no_archive) Samples.empty_stream "/tmp/dest" []
  = (Returns ("", Some io_EOF), []).
Proof.
  apply (UnpackStream_small_stream (Samples.env [] Samples.no_archive)
           Samples.empty_stream "/tmp/dest" []).
  - simpl. lia.
  - left. simpl. lia.
Defined.

(** X11. When the stream under the compression layer (or the stream
    itself, when it is not compressed) carries the TAR signature at
    offset 257, [UnpackStream] is [Untar] on that stream: same calls,
    same path, same error, the partial root included. *)
Theorem UnpackStream_tar (E : Env) (reader d : Stream) (destPath : string)
  (tr : list Event) (ftype : string) :
  magicNumber reader 0 = Returns (ftype, None) ->
  ftype <> "zip" ->
  decompressed E ftype reader = Some d ->
  magicNumber d 257 = Returns ("tar", None) ->
  UnpackStream E reader destPath tr
  = (Returns (fst (Untar E d destPath tr)), snd (Untar E d destPath tr)).
Proof.
  intros H0 Hzip Hd Hm.
  destruct (PipelineMore.decompressed_cases E ftype reader Hzip)
    as [(d' & Hd' & Hrun) | (Hnone & _)]; [|congruence].
  rewrite Hrun by assumption.
  assert (d' = d) as -> by congruence.
  unfold unpack_decompressed. rewrite Hm. cbn [String.eqb Ascii.eqb Bool.eqb].
  apply PipelineMore.lift_run.
Qed.

Lemma UnpackStream_tar_witness :
  UnpackStream (Samples.env [] Samples.two_roots)
               MoreSamples.tar_block
               "/tmp/dest" []
  = (Returns (fst (Untar (Samples.env [] Samples.two_roots)
                         MoreSamples.tar_block
                         "/tmp/dest" [])),
     snd (Untar (Samples.env [] Samples.two_roots)
                MoreSamples.tar_block
                "/tmp/dest" [])).
Proof.
  apply (UnpackStream_tar (Samples.env [] Samples.two_roots) _ _ "/tmp/dest" [] "").
  - reflexivity.
  - discriminate.
  - reflexivity.
  - reflexivity.
Defined.

(** X12. A stream that begins with the ZIP signature is handled as ZIP
    whatever follows, a TAR signature at offset 257 included:
    [UnpackStream] is [UnzipStream] on the whole stream, from its first
    byte. *)
Theorem UnpackStream_zip (E : Env) (reader : Stream) (rest : list byte)
  (destPath : string) (tr : list Event) :
  payload reader = magicZIP ++ rest ->
  2 <= length rest ->
  UnpackStream E reader destPath tr
  = (Returns (fst (UnzipStream E reader destPath tr)),
     snd (UnzipStream E reader destPath tr)).
Proof.
  intros Hp Hlen.
  unfold UnpackStream, bufio_NewReader.
  rewrite SniffMore.magicNumber_eq by lia.
  rewrite SnifferFacts.int64_small by lia.
  rewrite SniffMore.Peek_enough
    by (unfold defaultBufSize; rewrite ?Hp, ?length_app; simpl; lia).
  cbn [snd]. unfold window_at. rewrite Hp. cbn [Z.to_nat skipn].
  rewrite (SniffMore.classify_signature magicZIP "zip" rest)
    by first [ solve [simpl; auto] | simpl; lia ].
  cbn [String.eqb Ascii.eqb Bool.eqb].
  apply PipelineMore.lift_run.
Qed.

Lemma UnpackStream_zip_witness :
  UnpackStream (Samples.env [Samples.readme] Samples.no_archive)
               (mkStream (magicZIP ++ repeat x00 253 ++ magicTAR) None)
               "/tmp/dest" []
  = (Returns ("/tmp/dest", None),
     [Lstat "/tmp/dest/docs";
      Create "/tmp/dest/docs/readme.txt";
      Chmod "/tmp/dest/docs/readme.txt" 420;
      Chtimes "/tmp/dest/docs/readme.txt" 1700000000;
      Write "/tmp/dest/docs/readme.txt" Samples.readme_bytes;
      Close "/tmp/dest/docs/readme.txt"]).
Proof.
  apply (UnpackStream_zip (Samples.env [Samples.readme] Samples.no_archive)
           (mkStream (magicZIP ++ repeat x00 253 ++ magicTAR) None)
           (repeat x00 253 ++ magicTAR) "/tmp/dest" []).
  - reflexivity.
  - simpl. lia.
Defined.

(** X13. When the compression layer cannot be opened (the gzip or xz
    library rejects the stream), [UnpackStream] returns the empty path
    with the library's error and makes no call to the operating
    system. *)
Theorem UnpackStream_adapter_failure (E : Env) (reader : Stream)
  (destPath : string) (tr : list Event) (ftype : string) :
  magicNumber reader 0 = Returns (ftype, None) ->
  decompressed E ftype reader = None ->
  exists e,
    (init_error E Gzip reader = Some e \/ init_error E Xz reader = Some e)
    /\ UnpackStream E reader destPath tr = (Returns ("", Some e), tr).
Proof.
  intros H0 Hd.
  assert (Hzip : ftype <> "zip").
  { intros ->. discriminate Hd. }
  destruct (PipelineMore.decompressed_cases E ftype reader Hzip)
    as [(d & Hd' & _) | (_ & e & He & Hrun)]; [congruence|].
  exists e. split; [assumption|]. now apply Hrun.
Qed.

Lemma UnpackStream_adapter_failure_witness :
  exists e,
    (init_error MoreSamples.strict_env Gzip MoreSamples.bad_gzip = Some e
     \/ init_error MoreSamples.strict_env Xz MoreSamples.bad_gzip = Some e)
    /\ UnpackStream MoreSamples.strict_env MoreSamples.bad_gzip "/tmp/dest" []
       = (Returns ("", Some e), []).
Proof.
  apply (UnpackStream_adapter_failure MoreSamples.strict_env MoreSamples.bad_gzip
           "/tmp/dest" [] "gzip").
  - reflexivity.
  - reflexivity.
Defined.

(* ================================================================= *)
(** ** Traces of the extractors *)

Module TraceFacts.

Lemma held_after_app E a :
  forall h b held,
  held_after E h (a ++ b) held = held_after E (h ++ a) b (held_after E h a held).
Proof.
  induction a as [|ev a IH]; intros h b held.
  - now rewrite app_nil_r.
  - cbn [app held_after]. rewrite IH. now rewrite <- app_assoc.
Qed.

Lemma peak_ge E evs : forall h held, length held <= peak_held E h evs held.
Proof. destruct evs; intros; simpl; lia. Qed.

Lemma peak_held_app E a :
  forall h b held,
  peak_held E h (a ++ b) held
  = Nat.max (peak_held E h a held)
            (peak_held E (h ++ a) b (held_after E h a held)).
Proof.
  induction a as [|ev a IH]; intros h b held.
  - rewrite app_nil_r. cbn [app peak_held held_after].
    pose proof (peak_ge E b h held). lia.
  - cbn [app peak_held held_after]. rewrite IH, <- app_assoc.
    cbn [app]. lia.
Qed.

Lemma quiet_held E l :
  Forall (fun ev => quiet ev = true) l ->
  forall h held,
  held_after E h l held = held /\ peak_held E h l held = length held.
Proof.
  induction 1 as [|ev l Hq _ IH]; intros h held; [split; reflexivity|].
  cbn [held_after peak_held].
  assert (Hs : step_open E h ev held = held) by (destruct ev; try reflexivity; discriminate).
  rewrite Hs. destruct (IH (h ++ [ev]) held) as [-> ->]. split; [reflexivity | lia].
Qed.

Lemma balanced_quiet E h l :
  Forall (fun ev => quiet ev = true) l -> balanced E h l.
Proof.
  intros Hq held. destruct (quiet_held E l Hq h held) as [-> ->]. split; [reflexivity | lia].
Qed.

Lemma balanced_app E h a b :
  balanced E h a -> balanced E (h ++ a) b -> balanced E h (a ++ b).
Proof.
  intros Ha Hb held.
  rewrite held_after_app, peak_held_app.
  destruct (Ha held) as [Ea Pa]. rewrite Ea.
  destruct (Hb held) as [Eb Pb]. split; [assumption | lia].
Qed.

Lemma remove_first_head p l : remove_first p (p :: l) = l.
Proof. simpl. now rewrite String.eqb_refl. Qed.

(** A file created, used and closed. *)
Lemma balanced_bracket E h p mid post :
  os_result E h (Create p) = None ->
  Forall (fun ev => quiet ev = true) mid ->
  Forall (fun ev => quiet ev = true) post ->
  balanced E h (Create p :: mid ++ Close p :: post).
Proof.
  intros Hc Hm Hp held.
  cbn [held_after peak_held step_open]. rewrite Hc.
  rewrite held_after_app, peak_held_app.
  destruct (quiet_held E mid Hm (h ++ [Create p]) (p :: held)) as [-> ->].
  cbn [held_after peak_held step_open]. rewrite remove_first_head.
  destruct (quiet_held E post Hp (((h ++ [Create p]) ++ mid) ++ [Close p]) held)
    as [-> ->].
  split; [reflexivity|]. cbn [length]. lia.
Qed.

(** A file that could not be created. *)
Lemma balanced_not_created E h p e post :
  os_result E h (Create p) = Some e ->
  Forall (fun ev => quiet ev = true) post ->
  balanced E h (Create p :: post).
Proof.
  intros Hc Hp held.
  cbn [held_after peak_held step_open]. rewrite Hc.
  destruct (quiet_held E post Hp (h ++ [Create p]) held) as [-> ->].
  split; [reflexivity | lia].
Qed.

Lemma logs_quiet l : calls_of l = [] -> Forall (fun ev => quiet ev = true) l.
Proof.
  induction l as [|ev l IH]; intros H; [constructor|].
  unfold calls_of in H. simpl in H.
  destruct ev; simpl in H; try discriminate;
    (constructor; [reflexivity | now apply IH]).
Qed.

Lemma logs_within allowed l : calls_of l = [] -> within_paths allowed l.
Proof.
  induction l as [|ev l IH]; intros H; [constructor|].
  unfold calls_of in H. simpl in H.
  destruct ev; simpl in H; try discriminate;
    (constructor; [intros p Hp; discriminate | now apply IH]).
Qed.

Lemma writes_quiet p data : Forall (fun ev => quiet ev = true) (writes p data).
Proof. unfold writes. destruct data; repeat constructor. Qed.

Lemma writes_within allowed p data :
  In p allowed -> within_paths allowed (writes p data).
Proof.
  intros H. unfold writes. destruct data; repeat constructor.
  intros q Hq. inversion Hq; now subst.
Qed.

Lemma within_one allowed ev p :
  event_path ev = Some p -> In p allowed -> within_paths allowed [ev].
Proof.
  intros He Hin. repeat constructor. intros q Hq. congruence.
Qed.

Lemma within_app allowed a b :
  within_paths allowed a -> within_paths allowed b -> within_paths allowed (a ++ b).
Proof. intros Ha Hb. apply Forall_app. now split. Qed.

Lemma within_incl allowed allowed' l :
  incl allowed allowed' -> within_paths allowed l -> within_paths allowed' l.
Proof.
  intros Hi H. eapply Forall_impl; [|exact H].
  intros ev Hev p Hp. apply Hi. now apply Hev.
Qed.

(** What the copies add to the trace. *)
Lemma write_all_run E name data tr :
  exists r, write_all E name data tr = (r, tr ++ writes name data).
Proof.
  unfold write_all, writes, ret, call.
  destruct data; [rewrite app_nil_r|]; eauto.
Qed.

Lemma io_Copy_run E name src tr :
  exists r, io_Copy E name src tr = (r, tr ++ writes name (payload src)).
Proof.
  unfold io_Copy, bind.
  destruct (write_all_run E name (payload src) tr) as (r & ->).
  destruct r; unfold ret; eauto.
Qed.

Lemma io_CopyN_run E name src n tr :
  exists r, io_CopyN E name src n tr
            = (r, tr ++ writes name (firstn (Z.to_nat n) (payload src))).
Proof.
  unfold io_CopyN, bind.
  destruct (write_all_run E name (firstn (Z.to_nat n) (payload src)) tr) as (r & ->).
  destruct r; unfold ret; eauto.
  repeat match goal with |- context [if ?b then _ else _] => destruct b end; eauto.
Qed.


(** Proof steps shared by the extractors' trace lemmas. *)
Ltac within_events :=
  repeat first
    [ apply Forall_nil
    | apply Forall_app; split
    | apply logs_within; assumption
    | apply Forall_cons;
      [ let q := fresh "q" in
        let Hq := fresh "Hq" in
        intros q Hq; simpl in Hq;
        first [ discriminate Hq | inversion Hq; subst; simpl; tauto ]
      | ] ].

Ltac quiet_tail :=
  repeat first
    [ apply Forall_nil
    | apply Forall_app; split
    | apply logs_quiet; assumption
    | apply Forall_cons; [reflexivity|] ].

Ltac held_events Hcreate :=
  let held := fresh "held" in
  intros held;
  cbn [held_after peak_held step_open app];
  rewrite ?Hcreate; cbn iota; rewrite ?remove_first_head;
  try match goal with
      | |- context [held_after ?E ?h (?l1 ++ ?l2) ?o] =>
        let Hq := fresh "Hq" in
        assert (Hq : Forall (fun ev => quiet ev = true) (l1 ++ l2)) by quiet_tail;
        destruct (quiet_held E (l1 ++ l2) Hq h o) as [-> ->]
      | |- context [held_after ?E ?h ?l ?o] =>
        let Hq := fresh "Hq" in
        assert (Hq : Forall (fun ev => quiet ev = true) l) by quiet_tail;
        destruct (quiet_held E l Hq h o) as [-> ->]
      end;
  split; [reflexivity | cbn [length]; lia].

Lemma unzipFile_run E f destPath tr :
  exists r new,
    unzipFile E f destPath tr = (r, tr ++ new)
    /\ within_paths (zip_paths E destPath f) new
    /\ balanced E tr new.
Proof.
  unfold unzipFile, zip_paths.
  destruct (FileMode_IsDir (zf_Mode f)).
  { unfold bind, call, ret.
    destruct (os_result E tr _);
      (do 2 eexists; split; [reflexivity|]; split;
       [within_events | apply balanced_quiet; quiet_tail]). }
  destruct (zf_Open f) as [e|rc].
  { exists (Some e), []. unfold ret. rewrite app_nil_r.
    split; [reflexivity|]. split; [constructor | apply balanced_quiet; constructor]. }
  fold (zip_target E destPath f).
  set (p := zip_target E destPath f).
  set (dir := filepath.Dir p).
  unfold bind, call, log, ret.
  destruct (os_result E tr (Lstat dir)) as [el|];
    [destruct (os_result E _ (MkdirAll dir 448)) as [em|]|];
    try (destruct (os_result E _ (Create p)) as [ec|] eqn:Hcreate);
    try (destruct (os_result E _ (Chmod p (zf_Mode f))) as [e1|];
         destruct (os_result E _ (Chtimes p (zf_ModTime f))) as [e2|];
         match goal with
         | |- context [io_CopyN E p ?src ?n ?t] =>
           let r := fresh "r" in
           let R := fresh "R" in
           destruct (io_CopyN_run E p src n t) as (r & R); rewrite R;
           unfold writes; destruct (firstn (Z.to_nat n) (payload src))
         end;
         ZipFacts.run_close_file E p);
    ZipFacts.run_close_entry rc;
    rewrite <- ?app_assoc; cbn [app];
    (do 2 eexists; split; [reflexivity|]; split;
     [within_events | held_events Hcreate]).
Qed.


Lemma unpackZip_run E files destPath :
  forall tr,
  exists r new,
    unpackZip E files destPath tr = (r, tr ++ new)
    /\ within_paths (flat_map (zip_paths E destPath) files) new
    /\ balanced E tr new.
Proof.
  induction files as [|f rest IH]; intros tr.
  - exists (destPath, None), []. unfold unpackZip, ret. rewrite app_nil_r.
    split; [reflexivity|]. split; [constructor | apply balanced_quiet; constructor].
  - cbn [unpackZip flat_map]. unfold bind.
    destruct (unzipFile_run E f destPath tr) as (r & new & -> & Hw & Hb).
    destruct r as [e|].
    + exists ("", Some e), new. unfold ret. split; [reflexivity|]. split; [|assumption].
      eapply within_incl; [|exact Hw]. apply incl_appl, incl_refl.
    + destruct (IH (tr ++ new)) as (r' & new' & -> & Hw' & Hb').
      exists r', (new ++ new'). rewrite app_assoc. split; [reflexivity|]. split.
      * apply within_app.
        -- eapply within_incl; [|exact Hw]. apply incl_appl, incl_refl.
        -- eapply within_incl; [|exact Hw']. apply incl_appr, incl_refl.
      * now apply balanced_app.
Qed.

Lemma untarFile_run E hdr fp rootdir tr :
  exists r new,
    untarFile E hdr fp rootdir tr = (r, tr ++ new)
    /\ within_paths [fp; fst (filepath.Split fp)] new
    /\ balanced E tr new.
Proof.
  unfold untarFile.
  set (parentDir := fst (filepath.Split fp)).
  unfold bind, call, log, ret.
  destruct (os_result E tr (MkdirAll parentDir 480)) as [em|];
    try (destruct (os_result E _ (Create fp)) as [ec|] eqn:Hcreate);
    try (destruct (os_result E _ (Chmod fp _)) as [e1|];
         destruct (os_result E _ (Chtimes fp _)) as [e2|];
         match goal with
         | |- context [io_Copy E fp ?src ?t] =>
           let r := fresh "r" in
           let R := fresh "R" in
           destruct (io_Copy_run E fp src t) as (r & R); rewrite R;
           unfold writes; destruct (payload src); destruct r
         end;
         ZipFacts.run_close_file E fp);
    rewrite <- ?app_assoc; cbn [app];
    (do 2 eexists; split; [reflexivity|]; split;
     [within_events | held_events Hcreate]).
Qed.

Lemma untar_loop_run E destPath entries tail :
  forall rootdir tr,
  exists r new,
    untar_loop E destPath entries tail rootdir tr = (r, tr ++ new)
    /\ within_paths (flat_map (tar_paths E destPath) entries) new
    /\ balanced E tr new.
Proof.
  induction entries as [|hdr rest IH]; intros rootdir tr.
  - cbn [untar_loop]. destruct tail; unfold ret;
      (do 2 eexists; rewrite app_nil_r; split; [reflexivity|]; split;
       [constructor | apply balanced_quiet; constructor]).
  - cbn [untar_loop flat_map]. unfold tar_paths at 1, is_pax.
    destruct (String.eqb (th_Name hdr) "pax_global_header").
    { cbn [app]. apply IH. }
    set (fp := filepath.Join destPath (sanitize (runtime_GOOS E) (th_Name hdr))).
    destruct (th_IsDir hdr).
    + unfold bind, call.
      destruct (os_result E tr (MkdirAll fp _)) as [e|].
      * unfold ret. do 2 eexists. split; [reflexivity|]. split.
        -- within_events.
        -- apply balanced_quiet. quiet_tail.
      * match goal with
        | |- context [untar_loop E destPath rest tail ?rd ?t] =>
          destruct (IH rd t) as (r' & new' & -> & Hw' & Hb')
        end.
        exists r', ([MkdirAll fp (FileMode_of_int64 (th_Mode hdr))] ++ new').
        rewrite app_assoc. split; [reflexivity|]. split.
        -- apply within_app; [within_events|].
           eapply within_incl; [|exact Hw']. apply incl_appr, incl_refl.
        -- apply balanced_app; [apply balanced_quiet; quiet_tail | assumption].
    + unfold bind.
      destruct (untarFile_run E hdr fp rootdir tr) as (r & new & -> & Hw & Hb).
      destruct r as [r1 [e|]]; cbn [snd].
      * unfold ret. do 2 eexists. split; [reflexivity|]. split; [|assumption].
        eapply within_incl; [|exact Hw]. apply incl_appl, incl_refl.
      * destruct (IH rootdir (tr ++ new)) as (r' & new' & -> & Hw' & Hb').
        exists r', (new ++ new'). rewrite app_assoc. split; [reflexivity|]. split.
        -- apply within_app.
           ++ eapply within_incl; [|exact Hw]. apply incl_appl, incl_refl.
           ++ eapply within_incl; [|exact Hw']. apply incl_appr, incl_refl.
        -- now apply balanced_app.
Qed.

Lemma Untar_run E data destPath tr :
  exists r new,
    Untar E data destPath tr = (r, tr ++ new)
    /\ within_paths (destPath :: flat_map (tar_paths E destPath)
                                          (tar_entries (tar_NewReader E data))) new
    /\ balanced E tr new.
Proof.
  unfold Untar, bind, call.
  destruct (os_result E tr (MkdirAll destPath 480)) as [e|].
  - unfold ret. do 2 eexists. split; [reflexivity|]. split.
    + within_events.
    + apply balanced_quiet. quiet_tail.
  - destruct (untar_loop_run E destPath (tar_entries (tar_NewReader E data))
                (tar_tail (tar_NewReader E data)) destPath
                (tr ++ [MkdirAll destPath 480])) as (r & new & -> & Hw & Hb).
    exists r, ([MkdirAll destPath 480] ++ new).
    rewrite app_assoc. split; [reflexivity|]. split.
    + apply within_app; [within_events|].
      eapply within_incl; [|exact Hw]. apply incl_tl, incl_refl.
    + apply balanced_app; [apply balanced_quiet; quiet_tail | assumption].
Qed.

End TraceFacts.

(* ================================================================= *)
(** ** ZIP extraction *)

(** X14. Every call [unpackZip] makes to the operating system names, for
    some entry of the archive, the sanitized target of a file entry, the
    parent directory of that target, or the destination joined with the
    name of a directory entry as it stands; the calls made before are
    kept. *)
Theorem unpackZip_footprint (E : Env) (files : list ZipFile)
  (destPath : string) (tr : list Event) :
  exists new,
    snd (unpackZip E files destPath tr) = tr ++ new
    /\ within_paths (flat_map (zip_paths E destPath) files) new.
Proof.
  destruct (TraceFacts.unpackZip_run E files destPath tr) as (r & new & -> & Hw & _).
  now exists new.
Qed.

(** X15. [unpackZip] leaves no file open and never holds more than one
    open at a time, however many entries the archive has and whichever
    calls fail. *)
Theorem unpackZip_closes_files (E : Env) (files : list ZipFile)
  (destPath : string) (tr : list Event) :
  exists new,
    snd (unpackZip E files destPath tr) = tr ++ new
    /\ held_after E tr new [] = []
    /\ peak_held E tr new [] <= 1.
Proof.
  destruct (TraceFacts.unpackZip_run E files destPath tr) as (r & new & -> & _ & Hb).
  exists new. split; [reflexivity|]. exact (Hb []).
Qed.

Module ZipMore.


End ZipMore.


(** A stream with a read error, a rejected archive, and an archive whose
    second entry fails. *)
Example UnzipStream_errors :
  UnzipStream (Samples.env [] Samples.no_archive)
              (mkStream Samples.readme_bytes (Some "connection reset"))
              "/tmp/dest" []
  = (("", Some "connection reset"), [])
  /\ UnzipStream MoreSamples.strict_env Samples.blob "/tmp/dest" []
     = (("", Some "zip: not a valid zip file"), [])
  /\ UnzipStream (Samples.env [Samples.readme; MoreSamples.truncated]
                              Samples.no_archive)
                 Samples.blob "/tmp/dest" []
     = (("", Some io_EOF),
        [Lstat "/tmp/dest/docs";
         Create "/tmp/dest/docs/readme.txt";
         Chmod "/tmp/dest/docs/readme.txt" 420;
         Chtimes "/tmp/dest/docs/readme.txt" 1700000000;
         Write "/tmp/dest/docs/readme.txt" Samples.readme_bytes;
         Close "/tmp/dest/docs/readme.txt";
         Lstat "/tmp/dest";
         Create "/tmp/dest/a.txt";
         Chmod "/tmp/dest/a.txt" 420;
         Chtimes "/tmp/dest/a.txt" 0;
         Write "/tmp/dest/a.txt" Samples.readme_bytes;
         Close "/tmp/dest/a.txt"]).
Proof. repeat split; reflexivity. Qed.


(** X18. A ZIP file entry whose reader ends before the declared byte
    count (and when creating the parent directory, creating the file and
    writing succeed) is written with the bytes there are, the file is
    closed, and [unzipFile] returns the reader's error, [io.EOF] when the
    reader simply ends. *)
Theorem unzipFile_truncated_entry (E : Env) (f : ZipFile) (rc : ReadCloser)
  (destPath : string) (tr : list Event) :
  FileMode_IsDir (zf_Mode f) = false ->
  zf_Open f = inr rc ->
  (zf_UncompressedSize64 f < 2 ^ 63)%Z ->
  (Z.of_nat (length (payload (rc_stream rc))) < zf_UncompressedSize64 f)%Z ->
  (forall h, os_result E h (MkdirAll (filepath.Dir (zip_target E destPath f)) 448) = None) ->
  (forall h, os_result E h (Create (zip_target E destPath f)) = None) ->
  (forall h, os_result E h (Write (zip_target E destPath f) (payload (rc_stream rc))) = None) ->
  exists new,
    unzipFile E f destPath tr = (Some (readErr (rc_stream rc)), tr ++ new)
    /\ calls_of new =
       ensure_dir E tr (filepath.Dir (zip_target E destPath f))
       ++ [Create (zip_target E destPath f);
           Chmod (zip_target E destPath f) (zf_Mode f);
           Chtimes (zip_target E destPath f) (zf_ModTime f)]
       ++ writes (zip_target E destPath f) (payload (rc_stream rc))
       ++ [Close (zip_target E destPath f)].
Proof.
  intros Hdir Hopen Hsize Hlen Hmk Hcreate Hwrite.
  unfold unzipFile. rewrite Hdir, Hopen.
  fold (zip_target E destPath f).
  set (p := zip_target E destPath f) in *.
  set (dir := filepath.Dir p) in *.
  assert (Hwr : calls_of (writes p (payload (rc_stream rc)))
                = writes p (payload (rc_stream rc))).
  { unfold writes. destruct (payload (rc_stream rc)); reflexivity. }
  assert (Hcopy : forall t,
            io_CopyN E p (rc_stream rc) (zf_UncompressedSize64 f) t
            = (Some (readErr (rc_stream rc)), t ++ writes p (payload (rc_stream rc)))).
  { intros t. unfold io_CopyN, bind.
    rewrite firstn_all2 by lia.
    rewrite ZipFacts.write_all_ok by assumption.
    replace (Z.of_nat (length (payload (rc_stream rc))) =? zf_UncompressedSize64 f)%Z
      with false by (symmetry; apply Z.eqb_neq; lia).
    now replace (Z.of_nat (length (payload (rc_stream rc))) <? zf_UncompressedSize64 f)%Z
      with true by (symmetry; apply Z.ltb_lt; lia). }
  unfold ensure_dir, bind, call, log, ret.
  rewrite SnifferFacts.int64_small by lia.
  destruct (os_result E tr (Lstat dir)) as [el|];
    [rewrite Hmk|]; rewrite Hcreate;
    (destruct (os_result E _ (Chmod p (zf_Mode f))) as [e1|]);
    (destruct (os_result E _ (Chtimes p (zf_ModTime f))) as [e2|]);
    rewrite Hcopy;
    ZipFacts.run_close_file E p;
    ZipFacts.run_close_entry rc;
    (eexists; split; [rewrite <- !app_assoc; reflexivity|]);
    rewrite !ZipFacts.calls_of_app, ZipFacts.calls_of_Close, Hwr;
    repeat match goal with
           | C : calls_of _ = [] |- _ => rewrite C; clear C
           end;
    reflexivity.
Qed.

Lemma unzipFile_truncated_entry_witness :
  exists new,
    unzipFile (Samples.env [] Samples.no_archive) MoreSamples.truncated "/tmp/dest" []
    = (Some io_EOF, [] ++ new)
    /\ calls_of new =
       [Lstat "/tmp/dest";
        Create "/tmp/dest/a.txt";
        Chmod "/tmp/dest/a.txt" 420;
        Chtimes "/tmp/dest/a.txt" 0;
        Write "/tmp/dest/a.txt" Samples.readme_bytes;
        Close "/tmp/dest/a.txt"].
Proof.
  apply (unzipFile_truncated_entry (Samples.env [] Samples.no_archive)
           MoreSamples.truncated
           (mkReadCloser (mkStream Samples.readme_bytes None) None) "/tmp/dest" []).
  - reflexivity.
  - reflexivity.
  - simpl. lia.
  - simpl. lia.
  - intros h. reflexivity.
  - intros h. reflexivity.
  - intros h. reflexivity.
Defined.

(* ================================================================= *)
(** ** TAR extraction *)

(** X19. Every call [Untar] makes to the operating system names the
    destination, or, for some entry of the archive other than the global
    header, the destination joined with the entry's sanitized name or the
    parent directory of that path. *)
Theorem Untar_footprint (E : Env) (data : Stream) (destPath : string)
  (tr : list Event) :
  exists new,
    snd (Untar E data destPath tr) = tr ++ new
    /\ within_paths
         (destPath :: flat_map (tar_paths E destPath)
                               (tar_entries (tar_NewReader E data))) new.
Proof.
  destruct (TraceFacts.Untar_run E data destPath tr) as (r & new & -> & Hw & _).
  now exists new.
Qed.

(** X20. [Untar] leaves no file open and never holds more than one open
    at a time, however many entries the archive has and whichever calls
    fail. *)
Theorem Untar_closes_files (E : Env) (data : Stream) (destPath : string)
  (tr : list Event) :
  exists new,
    snd (Untar E data destPath tr) = tr ++ new
    /\ held_after E tr new [] = []
    /\ peak_held E tr new [] <= 1.
Proof.
  destruct (TraceFacts.Untar_run E data destPath tr) as (r & new & -> & _ & Hb).
  exists new. split; [reflexivity|]. exact (Hb []).
Qed.

(** X21. Entries named [pax_global_header] leave no trace: the loop of
    [Untar] does on an archive exactly what it does on the archive
    without them. *)
Theorem untar_loop_skips_pax (E : Env) (destPath : string)
  (entries : list TarEntry) (tail : option error) (rootdir : string)
  (tr : list Event) :
  untar_loop E destPath entries tail rootdir tr
  = untar_loop E destPath (filter (fun hdr => negb (is_pax hdr)) entries)
               tail rootdir tr.
Proof.
  revert rootdir tr. induction entries as [|hdr rest IH]; intros rootdir tr.
  - reflexivity.
  - cbn [filter]. unfold is_pax at 1.
    destruct (String.eqb (th_Name hdr) "pax_global_header") eqn:Ep; cbn [negb].
    + cbn [untar_loop]. rewrite Ep. apply IH.
    + cbn [untar_loop]. rewrite Ep.
      destruct (th_IsDir hdr).
      * unfold bind. destruct (call E _ tr) as [[e|] t]; [reflexivity | apply IH].
      * unfold bind. destruct (untarFile E hdr _ rootdir tr) as [[r1 [e|]] t];
          cbn [snd]; [reflexivity | apply IH].
Qed.

Module TarMore.




End TarMore.



(** X23. For a TAR file entry whose body reads without error, and when
    creating the parent directory, creating the file and writing
    succeed, [untarFile] returns the root it was given and no error, and
    its trace is exactly: the making of the parent directory with mode
    0740, the creation of the file, [Chmod] with the header's mode and a
    warning when it failed, [Chtimes] with the header's time and a
    warning when it failed, one write of the whole body, the closing of
    the file, and a log line when the closing failed. *)
Theorem untarFile_order (E : Env) (hdr : TarEntry) (fp rootdir : string)
  (tr : list Event) (perr terr cerr : option error) :
  fault (th_body hdr) = None ->
  (forall h, os_result E h (MkdirAll (fst (filepath.Split fp)) 480) = None) ->
  (forall h, os_result E h (Create fp) = None) ->
  (forall h, os_result E h (Write fp (payload (th_body hdr))) = None) ->
  (forall h, os_result E h (Chmod fp (FileMode_of_int64 (th_Mode hdr))) = perr) ->
  (forall h, os_result E h (Chtimes fp (th_ModTime hdr)) = terr) ->
  (forall h, os_result E h (Close fp) = cerr) ->
  untarFile E hdr fp rootdir tr
  = ((rootdir, None),
     tr ++ [MkdirAll (fst (filepath.Split fp)) 480;
            Create fp;
            Chmod fp (FileMode_of_int64 (th_Mode hdr))]
        ++ logged (LogWarnPerm fp) perr
        ++ [Chtimes fp (th_ModTime hdr)]
        ++ logged (LogWarnTimes fp) terr
        ++ writes fp (payload (th_body hdr))
        ++ [Close fp]
        ++ logged LogPrintln cerr).
Proof.
  intros Hf Hmk Hcreate Hwrite Hchmod Hchtimes Hclose.
  unfold untarFile, close_file, bind, call, log, ret.
  rewrite Hmk, Hcreate, Hchmod.
  destruct perr as [e1|]; rewrite Hchtimes;
    destruct terr as [e2|];
    rewrite PipelineFacts.io_Copy_ok by assumption;
    rewrite Hclose; destruct cerr as [e3|];
    cbn [logged]; rewrite <- ?app_assoc; cbn [app]; rewrite ?app_nil_r;
    reflexivity.
Qed.

Lemma untarFile_order_witness :
  untarFile (MoreSamples.env_on MoreSamples.os_no_chmod [] Samples.no_archive)
            (Samples.tar_file "a/x.txt" Samples.readme_bytes)
            "/tmp/dest/a/x.txt" "/tmp/dest" []
  = (("/tmp/dest", None),
     [] ++ [MkdirAll "/tmp/dest/a/" 480;
            Create "/tmp/dest/a/x.txt";
            Chmod "/tmp/dest/a/x.txt" 420]
        ++ [LogWarnPerm "/tmp/dest/a/x.txt" "operation not permitted"]
        ++ [Chtimes "/tmp/dest/a/x.txt" 0]
        ++ []
        ++ [Write "/tmp/dest/a/x.txt" Samples.readme_bytes]
        ++ [Close "/tmp/dest/a/x.txt"]
        ++ []).
Proof.
  apply (untarFile_order
           (MoreSamples.env_on MoreSamples.os_no_chmod [] Samples.no_archive)
           (Samples.tar_file "a/x.txt" Samples.readme_bytes)
           "/tmp/dest/a/x.txt" "/tmp/dest" []
           (Some "operation not permitted") None None).
  - reflexivity.
  - intros h. reflexivity.
  - intros h. reflexivity.
  - intros h. reflexivity.
  - intros h. reflexivity.
  - intros h. reflexivity.
  - intros h. reflexivity.
Defined.

(* ================================================================= *)
(** ** Small payloads and oversized entries *)

(** X24. When the stream under the compression layer holds fewer than 263
    bytes, the second sniff fails: [UnpackStream] returns the empty path
    with that stream's read error ([io.EOF] when it simply ends) and
    makes no call to the operating system, so a small compressed file is
    never saved. *)
Theorem UnpackStream_small_decompressed (E : Env) (reader d : Stream)
  (destPath : string) (tr : list Event) (ftype : string) :
  magicNumber reader 0 = Returns (ftype, None) ->
  ftype <> "zip" ->
  decompressed E ftype reader = Some d ->
  length (payload d) < 263 ->
  UnpackStream E reader destPath tr = (Returns ("", Some (readErr d)), tr).
Proof.
  intros H0 Hzip Hd Hlen.
  destruct (PipelineMore.decompressed_cases E ftype reader Hzip)
    as [(d' & Hd' & Hrun) | (Hnone & _)]; [|congruence].
  rewrite Hrun by assumption.
  assert (d' = d) as -> by congruence.
  now apply PipelineMore.unpack_decompressed_short.
Qed.

Lemma UnpackStream_small_decompressed_witness :
  UnpackStream (Samples.env [] Samples.no_archive) Samples.gz_stream "/tmp/dest" []
  = (Returns ("", Some "unexpected EOF"), []).
Proof.
  apply (UnpackStream_small_decompressed (Samples.env [] Samples.no_archive)
           Samples.gz_stream (mkStream [] (Some "unexpected EOF")) "/tmp/dest" [] "gzip").
  - reflexivity.
  - discriminate.
  - reflexivity.
  - simpl. lia.
Defined.

(** X25. The declared size is converted from [uint64] to [int64]: for an
    entry that declares 2^63 bytes or more the count is negative, nothing
    is copied, and (when creating the parent directory and the file
    succeed) [unzipFile] leaves an empty file and returns no error. *)
Theorem unzipFile_oversized_entry (E : Env) (f : ZipFile) (rc : ReadCloser)
  (destPath : string) (tr : list Event) :
  FileMode_IsDir (zf_Mode f) = false ->
  zf_Open f = inr rc ->
  (2 ^ 63 <= zf_UncompressedSize64 f < 2 ^ 64)%Z ->
  (forall h, os_result E h (MkdirAll (filepath.Dir (zip_target E destPath f)) 448) = None) ->
  (forall h, os_result E h (Create (zip_target E destPath f)) = None) ->
  exists new,
    unzipFile E f destPath tr = (None, tr ++ new)
    /\ calls_of new =
       ensure_dir E tr (filepath.Dir (zip_target E destPath f))
       ++ [Create (zip_target E destPath f);
           Chmod (zip_target E destPath f) (zf_Mode f);
           Chtimes (zip_target E destPath f) (zf_ModTime f);
           Close (zip_target E destPath f)].
Proof.
  intros Hdir Hopen Hsize Hmk Hcreate.
  unfold unzipFile. rewrite Hdir, Hopen.
  fold (zip_target E destPath f).
  set (p := zip_target E destPath f) in *.
  set (dir := filepath.Dir p) in *.
  assert (Hneg : (int64 (zf_UncompressedSize64 f) < 0)%Z).
  { apply SnifferFacts.int64_wrapped. lia. }
  assert (Hcopy : forall t,
            io_CopyN E p (rc_stream rc) (int64 (zf_UncompressedSize64 f)) t = (None, t)).
  { intros t. unfold io_CopyN, bind.
    replace (Z.to_nat (int64 (zf_UncompressedSize64 f))) with 0 by lia.
    cbn [firstn write_all ret length Z.of_nat].
    replace (0 =? int64 (zf_UncompressedSize64 f))%Z with false
      by (symmetry; apply Z.eqb_neq; lia).
    now replace (0 <? int64 (zf_UncompressedSize64 f))%Z with false
      by (symmetry; apply Z.ltb_ge; lia). }
  unfold ensure_dir, bind, call, log, ret.
  destruct (os_result E tr (Lstat dir)) as [el|];
    [rewrite Hmk|]; rewrite Hcreate;
    (destruct (os_result E _ (Chmod p (zf_Mode f))) as [e1|]);
    (destruct (os_result E _ (Chtimes p (zf_ModTime f))) as [e2|]);
    rewrite Hcopy;
    ZipFacts.run_close_file E p;
    ZipFacts.run_close_entry rc;
    (eexists; split; [rewrite <- !app_assoc; reflexivity|]);
    rewrite !ZipFacts.calls_of_app, ZipFacts.calls_of_Close;
    repeat match goal with
           | C : calls_of _ = [] |- _ => rewrite C; clear C
           end;
    reflexivity.
Qed.

Lemma unzipFile_oversized_entry_witness :
  exists new,
    unzipFile (Samples.env [] Samples.no_archive) MoreSamples.oversized "/tmp/dest" []
    = (None, [] ++ new)
    /\ calls_of new =
       [Lstat "/tmp/dest";
        Create "/tmp/dest/a.txt";
        Chmod "/tmp/dest/a.txt" 420;
        Chtimes "/tmp/dest/a.txt" 0;
        Close "/tmp/dest/a.txt"].
Proof.
  apply (unzipFile_oversized_entry (Samples.env [] Samples.no_archive)
           MoreSamples.oversized
           (mkReadCloser (mkStream Samples.readme_bytes None) None) "/tmp/dest" []).
  - reflexivity.
  - reflexivity.
  - simpl. lia.
  - intros h. reflexivity.
  - intros h. reflexivity.
Defined.
